(** * procctrl.hpp: process suspension, batch control and tree walking

    A shallow embedding of [include/procctrl.hpp].  The header has two
    bodies for most functions, selected by [#ifdef _WIN32]; module [Linux]
    embeds the POSIX bodies and module [Win32] the Windows ones.  The
    operating system is an explicit [world] value threaded through every
    call: the kernel process table, the files the header reads under
    [/proc], the [cgroup.freeze] control nodes it writes, and a trace of
    the system calls that can have an effect.  Diagnostics printed to
    stdout and stderr are not part of the model. *)

From Stdlib Require Import Ascii String.
From stdpp Require Import gmap strings list pretty.

Open Scope Z_scope.

(** ** The C and C++ library functions the header relies on *)

Module Cxx.

Definition INT_MIN : Z := -2147483648.
Definition INT_MAX : Z := 2147483647.
Definition LONG_MIN : Z := -9223372036854775808.
Definition LONG_MAX : Z := 9223372036854775807.

(** Conversion of a [long] to [pid_t] (a 32-bit [int]): wrap-around. *)
Definition to_int (z : Z) : Z := (z + 2147483648) mod 4294967296 - 2147483648.

(** [std::to_string] on an integer. *)
Definition to_string (z : Z) : string := pretty z.

(** [s.empty()] *)
Definition empty (s : string) : bool :=
  match s with EmptyString => true | String _ _ => false end.

(** [s.rfind(p, 0) == 0]: [p] occurs at position 0 of [s]. *)
Definition starts_with (p s : string) : bool := String.prefix p s.

(** [s.find(p) != std::string::npos] *)
Fixpoint contains (p s : string) : bool :=
  String.prefix p s ||
  match s with
  | EmptyString => false
  | String _ s' => contains p s'
  end.

(** [s.substr(n)] for [n <= s.size()] *)
Definition substr (n : nat) (s : string) : string :=
  String.substring n (String.length s - n) s.

(** [s.rfind(c)]: index of the last occurrence of [c]; [None] is [npos]. *)
Fixpoint rfind (c : ascii) (s : string) : option nat :=
  match s with
  | EmptyString => None
  | String a s' =>
      match rfind c s' with
      | Some i => Some (S i)
      | None => if Ascii.eqb a c then Some 0%nat else None
      end
  end.

Definition isspace (c : ascii) : bool := Ascii.is_space c.

Definition digit (c : ascii) : option Z :=
  let n := Z.of_nat (nat_of_ascii c) in
  if (48 <=? n) && (n <=? 57) then Some (n - 48) else None.

Fixpoint skip_ws (s : string) : string :=
  match s with
  | String c s' => if isspace c then skip_ws s' else s
  | EmptyString => s
  end.

(** An optional sign: [true] for a minus. *)
Definition read_sign (s : string) : bool * string :=
  match s with
  | String "-" s' => (true, s')
  | String "+" s' => (false, s')
  | _ => (false, s)
  end.

(** The longest run of decimal digits at the front of [s], accumulated
    on [acc], and the rest of the string. *)
Fixpoint read_digits (acc : Z) (s : string) : Z * string :=
  match s with
  | String c s' =>
      match digit c with
      | Some d => read_digits (10 * acc + d) s'
      | None => (acc, s)
      end
  | EmptyString => (acc, s)
  end.

Definition has_digit (s : string) : bool :=
  match s with
  | String c _ => bool_decide (is_Some (digit c))
  | EmptyString => false
  end.

Definition clamp (lo hi z : Z) : Z := Z.max lo (Z.min hi z).

(** [strtol(s, &endptr, 10)]: the value and the string at [endptr].
    Without a digit no conversion is performed and [endptr] is [s]. *)
Definition strtol (s : string) : Z * string :=
  let '(neg, s1) := read_sign (skip_ws s) in
  if has_digit s1 then
    let '(v, rest) := read_digits 0 s1 in
    (clamp LONG_MIN LONG_MAX (if neg then - v else v), rest)
  else (0, s).

(** [is >> c] for a [char]: skips white space, fails at end of input. *)
Definition extract_char (s : string) : option (ascii * string) :=
  match skip_ws s with
  | String c s' => Some (c, s')
  | EmptyString => None
  end.

(** [is >> n] for an [int]: skips white space, reads a signed decimal
    number, and fails without a digit or when the value does not fit. *)
Definition extract_int (s : string) : option (Z * string) :=
  let '(neg, s1) := read_sign (skip_ws s) in
  if has_digit s1 then
    let '(v, rest) := read_digits 0 s1 in
    let n := if neg then - v else v in
    if (INT_MIN <=? n) && (n <=? INT_MAX) then Some (n, rest) else None
  else None.

(** [v.back()] followed by [v.pop_back()]; [None] when [v.empty()]. *)
Definition pop_back {A} (v : list A) : option (A * list A) :=
  match reverse v with
  | [] => None
  | x :: r => Some (x, reverse r)
  end.

(** [is >> n] for an [int] that holds [old]: the value of [n] afterwards.
    At end of input nothing is stored, without a digit 0 is stored, and
    a number that does not fit is stored as the nearest limit. *)
Definition extract_int_store (old : Z) (s : string) : Z :=
  match skip_ws s with
  | EmptyString => old
  | String _ _ as s0 =>
      let '(neg, s1) := read_sign s0 in
      if has_digit s1 then
        let '(v, _) := read_digits 0 s1 in
        clamp INT_MIN INT_MAX (if neg then - v else v)
      else 0
  end.

(** The line feed that separates the lines of a file. *)
Definition newline : string := String (ascii_of_nat 10) EmptyString.

End Cxx.

(** ** The POSIX build *)

Module Linux.
Import Cxx.

(** The [sig] arguments the header passes to [kill]. *)
Inductive signal := SIG0 | SIGSTOP | SIGCONT.

#[global] Instance signal_eq_dec : EqDecision signal.
Proof. solve_decision. Defined.

Inductive errno_t := ESRCH | EPERM.

(** [errno == EPERM] *)
Definition is_EPERM (e : errno_t) : bool :=
  match e with EPERM => true | ESRCH => false end.

(** Outcome of a system call: [0], or [-1] with [errno] set. *)
Inductive status := Ok | Err (e : errno_t).

(** A process as the kernel sees it from the caller's side. *)
Record process := Process {
  stopped : bool;      (* stopped by a job-control signal *)
  may_signal : bool;   (* the caller has permission to signal it *)
  pgid : positive;     (* its process group *)
  unkillable : bool    (* SIGNAL_UNKILLABLE (init of the caller's pid
                          namespace) or a kernel thread: a stop signal is
                          accepted by kill and then dropped *)
}.

Inductive dtype := DT_UNKNOWN | DT_DIR | DT_REG | DT_LNK.

Record dirent := Dirent { d_type : dtype; d_name : string }.

(** A [cgroup.freeze] control node. *)
Record node := Node {
  open_ok : bool;    (* opening it for writing succeeds *)
  write_ok : bool;   (* the kernel accepts a write(2) of the flag *)
  frozen : bool      (* the flag the node holds *)
}.

Inductive event :=
| EvKill (pid : Z) (sig : signal)
| EvOpen (path : string)
| EvWrite (path : string) (data : string).

#[global] Instance linux_event_eq_dec : EqDecision event.
Proof. solve_decision. Defined.

Record world := World {
  procs : gmap positive process;     (* the kernel's process table *)
  self : positive;                   (* pid of the caller *)
  self_pgid : positive;              (* process group of the caller *)
  proc_dir : option (list dirent);   (* readdir sequence of /proc *)
  files : gmap string (list string); (* readable files, as lines *)
  existing : gset string;            (* paths on which stat succeeds *)
  nodes : gmap string node;          (* writable control nodes *)
  trace : list event                 (* effectful calls, oldest first *)
}.

Definition set_procs (ps : gmap positive process) (w : world) : world :=
  World ps (self w) (self_pgid w) (proc_dir w) (files w) (existing w)
        (nodes w) (trace w).

Definition set_nodes (ns : gmap string node) (w : world) : world :=
  World (procs w) (self w) (self_pgid w) (proc_dir w) (files w) (existing w)
        ns (trace w).

Definition log (e : event) (w : world) : world :=
  World (procs w) (self w) (self_pgid w) (proc_dir w) (files w) (existing w)
        (nodes w) (trace w ++ [e]).

(** Calls that may change the world. *)
Definition sys (A : Type) : Type := world → A * world.

Definition ret {A} (a : A) : sys A := λ w, (a, w).

Definition bind {A B} (c : sys A) (k : A → sys B) : sys B :=
  λ w, let '(a, w') := c w in k a w'.

(** Calls that only read the world. *)
Definition gets {A} (f : world → A) : sys A := λ w, (f w, w).

Declare Scope sys_scope.
Delimit Scope sys_scope with sys.
Notation "'let*' x := c 'in' k" := (bind c (λ x, k))
  (at level 10, x name, c at level 100, k at level 200) : sys_scope.

(** *** kill(2) *)

(** What a signal that passed the permission check does to a process.
    SIGSTOP cannot be caught or ignored by an ordinary process; the
    kernel drops it for an unkillable one. *)
Definition deliver (sig : signal) (p : process) : process :=
  match sig with
  | SIG0 => p
  | SIGSTOP =>
      if unkillable p then p
      else Process true (may_signal p) (pgid p) (unkillable p)
  | SIGCONT => Process false (may_signal p) (pgid p) (unkillable p)
  end.

(** The processes a non-positive [pid] argument addresses: [0] is the
    caller's process group, [-1] every process but init and the caller,
    [-g] the process group [g]. *)
Definition addressed (pid : Z) (w : world) (k : positive) (p : process) : bool :=
  match pid with
  | Z0 => bool_decide (pgid p = self_pgid w)
  | Zneg 1 => bool_decide (k ≠ 1%positive ∧ k ≠ self w)
  | Zneg g => bool_decide (pgid p = g)
  | Zpos q => bool_decide (k = q)
  end.

Definition kill (pid : Z) (sig : signal) : sys status := λ w,
  let w' := log (EvKill pid sig) w in
  match pid with
  | Zpos q =>
      match procs w !! q with
      | None => (Err ESRCH, w')
      | Some p =>
          if may_signal p
          then (Ok, set_procs (<[q := deliver sig p]> (procs w)) w')
          else (Err EPERM, w')
      end
  | _ =>
      let hit := filter (λ kp, addressed pid w kp.1 kp.2 = true) (procs w) in
      let allowed := filter (λ kp, may_signal kp.2 = true) hit in
      if bool_decide (hit = ∅) then (Err ESRCH, w')
      else if bool_decide (allowed = ∅) then (Err EPERM, w')
      else (Ok, set_procs ((deliver sig <$> allowed) ∪ procs w) w')
  end.

(** *** Files *)

(** [std::ifstream f(path)] followed by one [std::getline]: [None] when
    the file cannot be opened, else its first line ([""] for an empty
    file). *)
Definition first_line (path : string) (w : world) : option string :=
  match files w !! path with
  | None => None
  | Some ls => Some (hd EmptyString ls)
  end.

(** A [std::ofstream]: the file it was constructed on, whether that file
    is open, the stream's error state, and the characters waiting in its
    buffer. *)
Record ofstream := Ofstream {
  os_path : string;
  is_open : bool;
  fail : bool;          (* failbit or badbit is set *)
  os_buffer : string
}.

(** [std::ofstream f(path)]: open(2) for writing; failbit when it fails. *)
Definition ofstream_open (path : string) : sys ofstream := λ w,
  let w' := log (EvOpen path) w in
  match nodes w !! path with
  | None => (Ofstream path false true EmptyString, w')
  | Some n =>
      if open_ok n then (Ofstream path true false EmptyString, w')
      else (Ofstream path false true EmptyString, w')
  end.

(** [f << data] for a [data] shorter than the stream's buffer: on a good
    stream the characters go into the buffer and no write(2) is made, so
    the stream stays good; on any other stream the insertion sets
    failbit. *)
Definition ofstream_put (data : string) (f : ofstream) : ofstream :=
  if is_open f && negb (fail f)
  then Ofstream (os_path f) true false (os_buffer f +:+ data)
  else Ofstream (os_path f) (is_open f) true (os_buffer f).

(** What cgroup.freeze makes of the characters written to it. *)
Definition freeze_value (data : string) : option bool :=
  if String.eqb data "1" then Some true
  else if String.eqb data "0" then Some false
  else None.

(** [~ofstream()]: an open stream hands its buffer to write(2) and closes
    the file.  When the kernel rejects the write the node keeps its
    flag, and the error is reported to nobody: the stream is gone. *)
Definition ofstream_close (f : ofstream) : sys unit := λ w,
  if is_open f && negb (empty (os_buffer f)) then
    let w' := log (EvWrite (os_path f) (os_buffer f)) w in
    match nodes w !! os_path f, freeze_value (os_buffer f) with
    | Some n, Some v =>
        if write_ok n
        then (tt, set_nodes (<[os_path f := Node (open_ok n) (write_ok n) v]>
                               (nodes w)) w')
        else (tt, w')
    | _, _ => (tt, w')
    end
  else (tt, w).

(** *** The header's functions *)

Definition is_cgroup_v2_available (w : world) : bool :=
  bool_decide ("/sys/fs/cgroup/cgroup.controllers"%string ∈ existing w).

Definition get_cgroup_v2_path (pid : Z) (w : world) : string :=
  match files w !! ("/proc/" +:+ to_string pid +:+ "/cgroup")%string with
  | None => EmptyString
  | Some ls =>
      match List.find (starts_with "0::/") ls with
      | Some line => ("/sys/fs/cgroup" +:+ substr 3 line)%string
      | None => EmptyString
      end
  end.

Definition process_exists (pid : Z) : sys bool :=
  (let* r := kill pid SIG0 in
   ret match r with
       | Ok => true
       | Err errno => is_EPERM errno
       end)%sys.

Definition can_control_process (pid : Z) : sys bool :=
  (let* r := kill pid SIG0 in
   match r with
   | Ok => ret true
   | Err errno => ret (is_EPERM errno)
   end)%sys.

(** The test both directory loops apply to an entry before using it:
    the entry is a directory (or of unknown type) and its whole name is
    a number.  Gives the [pid_t] the name converts to. *)
Definition entry_pid (e : dirent) : option Z :=
  match d_type e with
  | DT_UNKNOWN | DT_DIR =>
      let '(v, endptr) := strtol (d_name e) in
      if empty endptr then Some (to_int v) else None
  | _ => None
  end.

Definition comm_matches (exe_name : string) (w : world) (e : dirent) : option Z :=
  match entry_pid e with
  | None => None
  | Some pid =>
      match first_line ("/proc/" +:+ d_name e +:+ "/comm") w with
      | None => None
      | Some pname => if String.eqb pname exe_name then Some pid else None
      end
  end.

Definition find_process_by_name (exe_name : string) (w : world) : Z :=
  match proc_dir w with
  | None => -1
  | Some entries =>
      match omap (comm_matches exe_name w) entries with
      | pid :: _ => pid
      | [] => -1
      end
  end.

Definition find_all_processes_by_name (exe_name : string) (w : world) : list Z :=
  match proc_dir w with
  | None => []
  | Some entries => omap (comm_matches exe_name w) entries
  end.

Definition get_parent_pid (pid : Z) (w : world) : Z :=
  match first_line ("/proc/" +:+ to_string pid +:+ "/stat") w with
  | None => -1
  | Some line =>
      match rfind ")" line with
      | None => -1
      | Some pos =>
          match extract_char (substr (pos + 1) line) with
          | None => -1
          | Some (state, rest) =>
              match extract_int rest with
              | Some (ppid, _) => ppid
              | None => -1
              end
          end
      end
  end.

Definition is_sandboxed_app (cgroup_path : string) : bool :=
  negb (empty cgroup_path) &&
  (contains "app-" cgroup_path || contains "snap." cgroup_path).

Definition set_process_suspended (pid : Z) (suspend : bool) : sys bool :=
  (let* alive := process_exists pid in
   if negb alive then ret false
   else
     let* cgroup_path := gets (get_cgroup_v2_path pid) in
     let signal_to_send := if suspend then SIGSTOP else SIGCONT in
     let* v2 := gets is_cgroup_v2_available in
     if is_sandboxed_app cgroup_path && v2 then
       let freeze_file_path := (cgroup_path +:+ "/cgroup.freeze")%string in
       let* freeze_file := ofstream_open freeze_file_path in
       if negb (fail freeze_file) then
         let freeze_file :=
           ofstream_put (if suspend then "1" else "0")%string freeze_file in
         if fail freeze_file then
           let* _ := ofstream_close freeze_file in ret false
         else
           let* _ := ofstream_close freeze_file in ret true
       else
         let* _ := ofstream_close freeze_file in ret false
     else
       let* r := kill pid signal_to_send in
       match r with
       | Ok => ret true
       | Err _ => ret false
       end)%sys.

(** The loop shared, word for word, by [suspend_processes_by_name] and
    [resume_processes_by_name]; [suspend] is the flag each passes to
    [set_process_suspended]. *)
Fixpoint batch_loop (suspend : bool) (pids : list Z)
    (handled_cgroups : gset string) (success_count : Z) : sys Z :=
  match pids with
  | [] => ret success_count
  | pid :: rest =>
      (let* cgroup_path := gets (get_cgroup_v2_path pid) in
       if negb (empty cgroup_path) && bool_decide (cgroup_path ∈ handled_cgroups)
       then batch_loop suspend rest handled_cgroups success_count
       else
         let handled_cgroups' :=
           if negb (empty cgroup_path)
           then {[cgroup_path]} ∪ handled_cgroups else handled_cgroups in
         let* ok := set_process_suspended pid suspend in
         batch_loop suspend rest handled_cgroups'
           (if ok then success_count + 1 else success_count))%sys
  end.

Definition suspend_processes_by_name (exe_name : string) : sys Z :=
  (let* pids := gets (find_all_processes_by_name exe_name) in
   batch_loop true pids ∅ 0)%sys.

Definition resume_processes_by_name (exe_name : string) : sys Z :=
  (let* pids := gets (find_all_processes_by_name exe_name) in
   batch_loop false pids ∅ 0)%sys.

(** The pids one pass over /proc finds with parent [current]. *)
Definition children (current : Z) (w : world) (entries : list dirent) : list Z :=
  omap (λ e, match entry_pid e with
             | Some pid =>
                 if bool_decide (get_parent_pid pid w = current)
                 then Some pid else None
             | None => None
             end) entries.

(** The [while (!to_check.empty())] loop; [fuel] bounds the number of
    iterations and [None] means the bound was reached. *)
Fixpoint tree_loop (fuel : nat) (w : world) (tree to_check : list Z)
    : option (list Z) :=
  match pop_back to_check with
  | None => Some tree
  | Some (current, to_check') =>
      match fuel with
      | O => None
      | S fuel' =>
          match proc_dir w with
          | None => tree_loop fuel' w tree to_check'
          | Some entries =>
              let found := children current w entries in
              tree_loop fuel' w (tree ++ found) (to_check' ++ found)
          end
      end
  end.

Definition get_process_tree (fuel : nat) (root_pid : Z) (w : world)
    : option (list Z) :=
  tree_loop fuel w [root_pid] [root_pid].

(** *** Vocabulary of the statements

    What the properties below say about a world; none of this is code
    of the header. *)

(** The control node of a cgroup directory. *)
Definition freeze_file (cgroup_path : string) : string :=
  (cgroup_path +:+ "/cgroup.freeze")%string.

(** The isolation domain of [pid]: its cgroup, under the condition that
    makes [set_process_suspended] freeze the cgroup instead of signalling
    the pid (the path looks like a sandboxed application and cgroup v2 is
    mounted). *)
Definition resolve_domain (pid : Z) (w : world) : option string :=
  let cgroup_path := get_cgroup_v2_path pid w in
  if is_sandboxed_app cgroup_path && is_cgroup_v2_available w
  then Some cgroup_path else None.

(** The node can be opened for writing. *)
Definition openable (path : string) (w : world) : bool :=
  match nodes w !! path with
  | Some n => open_ok n
  | None => false
  end.

(** A write of the flag to the node would go through. *)
Definition writable (path : string) (w : world) : bool :=
  match nodes w !! path with
  | Some n => open_ok n && write_ok n
  | None => false
  end.

(** What the three stream operations of [set_process_suspended] on the
    control node at [path] come to: the result returned and the world
    left. *)
Definition freeze_call (path : string) (suspend : bool) : sys bool := λ w,
  let w1 := log (EvOpen path) w in
  match nodes w !! path with
  | None => (false, w1)
  | Some n =>
      if open_ok n then
        let w2 := log (EvWrite path (if suspend then "1" else "0")%string) w1 in
        (true,
         if write_ok n
         then set_nodes (<[path := Node (open_ok n) (write_ok n) suspend]>
                           (nodes w)) w2
         else w2)
      else (false, w1)
  end.

Definition cgroup_frozen (pid : Z) (w : world) : bool :=
  match nodes w !! freeze_file (get_cgroup_v2_path pid w) with
  | Some n => frozen n
  | None => false
  end.

(** The SuspensionState of a process in the table: Suspended when it is
    stopped by a signal or its cgroup is frozen, Running otherwise. *)
Definition is_suspended (q : positive) (w : world) : bool :=
  match procs w !! q with
  | Some p => stopped p || cgroup_frozen (Zpos q) w
  | None => false
  end.

(** The caller has the rights the backend chosen for [q] needs. *)
Definition controllable (q : positive) (w : world) : bool :=
  match procs w !! q with
  | None => false
  | Some p =>
      match resolve_domain (Zpos q) w with
      | Some d => writable (freeze_file d) w
      | None => may_signal p
      end
  end.


(** In the specification's words: the units of a batch.  A matched pid
    with an isolation domain stands for the domain, which is acted on
    once, through the first such pid; a matched pid without a domain is a
    unit by itself. *)
Fixpoint spec_units (pids : list Z) (handled_domains : gset string)
    (w : world) : list Z :=
  match pids with
  | [] => []
  | pid :: rest =>
      match resolve_domain pid w with
      | Some d =>
          if bool_decide (d ∈ handled_domains)
          then spec_units rest handled_domains w
          else pid :: spec_units rest ({[d]} ∪ handled_domains) w
      | None => pid :: spec_units rest handled_domains w
      end
  end.

(** The pids a batch acts on: the loop of the batch functions with the
    calls left out. *)
Fixpoint batch_units (pids : list Z) (handled_cgroups : gset string)
    (w : world) : list Z :=
  match pids with
  | [] => []
  | pid :: rest =>
      let cgroup_path := get_cgroup_v2_path pid w in
      if negb (empty cgroup_path) && bool_decide (cgroup_path ∈ handled_cgroups)
      then batch_units rest handled_cgroups w
      else pid :: batch_units rest
                    (if negb (empty cgroup_path)
                     then {[cgroup_path]} ∪ handled_cgroups
                     else handled_cgroups) w
  end.

(** The pids of a list that have no cgroup v2 path, and the cgroup v2
    paths of the others. *)
Definition pathless (w : world) (pids : list Z) : list Z :=
  filter (λ pid, get_cgroup_v2_path pid w = EmptyString) pids.

Definition cgroup_paths (w : world) (pids : list Z) : list string :=
  filter (λ path, path ≠ EmptyString)
    ((λ pid, get_cgroup_v2_path pid w) <$> pids).

(** Continue-on-error as the specification words it: every unit is
    attempted in turn, whatever became of the ones before it. *)
Fixpoint attempt_all (suspend : bool) (units : list Z) : sys (list bool) :=
  match units with
  | [] => ret []
  | pid :: rest =>
      (let* ok := set_process_suspended pid suspend in
       let* oks := attempt_all suspend rest in
       ret (ok :: oks))%sys
  end.

Definition successes (oks : list bool) : Z :=
  Z.of_nat (length (filter (λ ok, ok = true) oks)).

(** What the header reads, /proc and the mount table, is the same in
    both worlds. *)
Definition same_fs (w w' : world) : Prop :=
  files w' = files w ∧ existing w' = existing w ∧ proc_dir w' = proc_dir w.

(** The flag written for a freeze and for a thaw. *)
Definition flag (suspend : bool) : string :=
  (if suspend then "1" else "0")%string.

Definition stop_or_cont (suspend : bool) : signal :=
  if suspend then SIGSTOP else SIGCONT.

(** [child_of w entries x c]: a pass over /proc finds [x] with parent
    [c]. *)
Definition child_of (w : world) (entries : list dirent) (x c : Z) : Prop :=
  x ∈ children c w entries.

(** [descends w entries c x]: [x] is a child of [c], or of a child of
    [c], and so on. *)
Inductive descends (w : world) (entries : list dirent) : Z → Z → Prop :=
| descends_child c x :
    child_of w entries x c → descends w entries c x
| descends_step c y x :
    child_of w entries y c → descends w entries y x → descends w entries c x.

(** Working off the pids [l] on top of the stack takes [k] iterations
    and appends [extra] to the tree, whatever lies below them. *)
Definition works_off (w : world) (l : list Z) (k : nat) (extra : list Z) : Prop :=
  ∀ fuel tree rest,
    tree_loop (k + fuel) w tree (rest ++ l) =
      tree_loop fuel w (tree ++ extra) rest.

(** The pids whose existence a run of events probes, in order. *)
Definition probed (evs : list event) : list Z :=
  omap (λ e, match e with EvKill pid SIG0 => Some pid | _ => None end) evs.

(** The control nodes a run of events opens, in order. *)
Definition opened (evs : list event) : list string :=
  omap (λ e, match e with EvOpen path => Some path | _ => None end) evs.

(** *** Functions and vocabulary of the further properties *)

Definition get_max_pid (w : world) : Z :=
  let max_pid := 32768 in
  match files w !! "/proc/sys/kernel/pid_max"%string with
  | None => max_pid
  | Some ls => extract_int_store max_pid (String.concat newline ls)
  end.


End Linux.

(** ** The Windows build *)

Module Win32.

(** One record of a Toolhelp snapshot ([pid_t] is [DWORD] here). *)
Record PROCESSENTRY32W := Entry {
  th32ProcessID : Z;
  th32ParentProcessID : Z;
  szExeFile : string
}.

Record process := Process {
  suspend_count : nat;    (* how often it is suspended and not resumed *)
  query_access : bool;    (* PROCESS_QUERY_LIMITED_INFORMATION is granted *)
  suspend_access : bool;  (* PROCESS_SUSPEND_RESUME is granted *)
  terminating : bool      (* the Nt calls answer with an error status *)
}.

Inductive access := PROCESS_QUERY_LIMITED_INFORMATION | PROCESS_SUSPEND_RESUME.

Inductive event :=
| EvGetModuleHandle
| EvGetProcAddress (name : string)
| EvAdjustTokenPrivileges
| EvNtSuspendProcess (pid : Z)
| EvNtResumeProcess (pid : Z).

#[global] Instance win32_event_eq_dec : EqDecision event.
Proof. solve_decision. Defined.

Record world := World {
  procs : gmap Z process;
  snapshot : option (list PROCESSENTRY32W);
    (* what CreateToolhelp32Snapshot sees; None: INVALID_HANDLE_VALUE *)
  ntdll : option (bool * bool);
    (* GetModuleHandleA("ntdll"), and for a loaded module whether it
       exports NtSuspendProcess and NtResumeProcess *)
  token : option (option bool);
    (* OpenProcessToken, LookupPrivilegeValueA, AdjustTokenPrivileges *)
  initialized : bool;               (* the static flag of init_nt_functions *)
  g_pfnNtSuspendProcess : bool;     (* the global is not nullptr *)
  g_pfnNtResumeProcess : bool;      (* the global is not nullptr *)
  trace : list event
}.

Definition set_procs (ps : gmap Z process) (w : world) : world :=
  World ps (snapshot w) (ntdll w) (token w) (initialized w)
        (g_pfnNtSuspendProcess w) (g_pfnNtResumeProcess w) (trace w).

Definition set_pfn (s r : bool) (w : world) : world :=
  World (procs w) (snapshot w) (ntdll w) (token w) (initialized w) s r (trace w).

Definition set_initialized (b : bool) (w : world) : world :=
  World (procs w) (snapshot w) (ntdll w) (token w) b
        (g_pfnNtSuspendProcess w) (g_pfnNtResumeProcess w) (trace w).

Definition log (e : event) (w : world) : world :=
  World (procs w) (snapshot w) (ntdll w) (token w) (initialized w)
        (g_pfnNtSuspendProcess w) (g_pfnNtResumeProcess w) (trace w ++ [e]).

Definition sys (A : Type) : Type := world → A * world.

(** [OpenProcess(acc, FALSE, pid)] gives a handle or [NULL]. *)
Definition OpenProcess (acc : access) (pid : Z) (w : world) : bool :=
  match procs w !! pid with
  | None => false
  | Some p =>
      match acc with
      | PROCESS_QUERY_LIMITED_INFORMATION => query_access p
      | PROCESS_SUSPEND_RESUME => suspend_access p
      end
  end.

Definition enable_debug_privilege : sys bool := λ w,
  match token w with
  | None => (false, w)
  | Some None => (false, w)
  | Some (Some success) => (success, log EvAdjustTokenPrivileges w)
  end.

(** The two [GetProcAddress] assignments under [if (hNtdll)]. *)
Definition resolve_nt_functions (w : world) : world :=
  let w := log EvGetModuleHandle w in
  match ntdll w with
  | Some (s, r) =>
      set_pfn s r (log (EvGetProcAddress "NtResumeProcess")
                     (log (EvGetProcAddress "NtSuspendProcess") w))
  | None => w
  end.

Definition init_nt_functions : sys unit := λ w,
  if negb (initialized w) then
    let w := resolve_nt_functions w in
    let '(_, w) := enable_debug_privilege w in
    (tt, set_initialized true w)
  else (tt, w).

Definition process_exists (pid : Z) (w : world) : bool :=
  OpenProcess PROCESS_QUERY_LIMITED_INFORMATION pid w.

Definition can_control_process (pid : Z) (w : world) : bool :=
  OpenProcess PROCESS_SUSPEND_RESUME pid w.

(** [NtSuspendProcess] and [NtResumeProcess] on a handle to [pid]: is the
    returned status [0]?  The kernel's limit on the suspend count is left
    out. *)
Definition nt_call (suspend : bool) (pid : Z) : sys bool := λ w,
  let w' := log (if suspend then EvNtSuspendProcess pid
                 else EvNtResumeProcess pid) w in
  match procs w !! pid with
  | None => (false, w')
  | Some p =>
      if terminating p then (false, w')
      else
        let n := if suspend then S (suspend_count p)
                 else Nat.pred (suspend_count p) in
        (true, set_procs (<[pid := Process n (query_access p)
                                     (suspend_access p) (terminating p)]>
                            (procs w)) w')
  end.

Definition set_process_suspended (pid : Z) (suspend : bool) : sys bool := λ w,
  if negb (process_exists pid w) then (false, w)
  else
    let '(_, w) := init_nt_functions w in
    if negb (g_pfnNtSuspendProcess w) || negb (g_pfnNtResumeProcess w)
    then (false, w)
    else if negb (OpenProcess PROCESS_SUSPEND_RESUME pid w) then (false, w)
    else nt_call suspend pid w.

Definition find_all_processes_by_name (exe_name : string) (w : world) : list Z :=
  match snapshot w with
  | None => []
  | Some entries =>
      th32ProcessID <$>
        filter (λ pe32, szExeFile pe32 = exe_name) entries
  end.

Fixpoint batch_loop (suspend : bool) (pids : list Z) (success_count : Z)
    : sys Z := λ w,
  match pids with
  | [] => (success_count, w)
  | pid :: rest =>
      let '(ok, w) := set_process_suspended pid suspend w in
      batch_loop suspend rest
        (if ok then success_count + 1 else success_count) w
  end.

Definition suspend_processes_by_name (exe_name : string) : sys Z := λ w,
  batch_loop true (find_all_processes_by_name exe_name w) 0 w.

Definition resume_processes_by_name (exe_name : string) : sys Z := λ w,
  batch_loop false (find_all_processes_by_name exe_name w) 0 w.

(** The entries of one snapshot whose parent is [current]. *)
Definition children (current : Z) (entries : list PROCESSENTRY32W) : list Z :=
  th32ProcessID <$>
    filter (λ pe32, th32ParentProcessID pe32 = current) entries.

Fixpoint tree_loop (fuel : nat) (w : world) (tree to_check : list Z)
    : option (list Z) :=
  match Cxx.pop_back to_check with
  | None => Some tree
  | Some (current, to_check') =>
      match fuel with
      | O => None
      | S fuel' =>
          match snapshot w with
          | None => tree_loop fuel' w tree to_check'
          | Some entries =>
              let found := children current entries in
              tree_loop fuel' w (tree ++ found) (to_check' ++ found)
          end
      end
  end.

Definition get_process_tree (fuel : nat) (root_pid : Z) (w : world)
    : option (list Z) :=
  tree_loop fuel w [root_pid] [root_pid].

(** Continue-on-error as the specification words it, for this build:
    every matched pid is a unit. *)
Fixpoint attempt_all (suspend : bool) (units : list Z) : sys (list bool) :=
  λ w,
  match units with
  | [] => ([], w)
  | pid :: rest =>
      let '(ok, w) := set_process_suspended pid suspend w in
      let '(oks, w) := attempt_all suspend rest w in
      (ok :: oks, w)
  end.

(** *** Threads entering [init_nt_functions]

    The function has no lock, atomic or [call_once]: each access to the
    static flag and to the globals is a step of its own, and steps of
    different threads interleave. *)

Inductive pc :=
| AtTest        (* about to evaluate [!initialized] *)
| AtResolve     (* inside the block, before the lookups *)
| AtPrivilege   (* before [enable_debug_privilege()] *)
| AtSetFlag     (* before [initialized = true] *)
| Returned.

Definition thread_step (p : pc) (w : world) : pc * world :=
  match p with
  | AtTest => if negb (initialized w) then (AtResolve, w) else (Returned, w)
  | AtResolve => (AtPrivilege, resolve_nt_functions w)
  | AtPrivilege => (AtSetFlag, (enable_debug_privilege w).2)
  | AtSetFlag => (Returned, set_initialized true w)
  | Returned => (Returned, w)
  end.

(** A schedule names, step by step, the thread that moves. *)
Fixpoint run (schedule : list nat) (threads : list pc) (w : world)
    : list pc * world :=
  match schedule with
  | [] => (threads, w)
  | i :: schedule' =>
      match threads !! i with
      | None => run schedule' threads w
      | Some p =>
          let '(p', w') := thread_step p w in
          run schedule' (<[i := p']> threads) w'
      end
  end.

(** How often the entry points were looked up. *)
Definition resolutions (w : world) : nat :=
  length (filter (λ e, e = EvGetModuleHandle) (trace w)).

(** The world after [n] calls of [init_nt_functions], one after the
    other. *)
Definition after_calls (n : nat) (w : world) : world :=
  Nat.iter n (λ w, (init_nt_functions w).2) w.

(** The capability later calls work with. *)
Definition capability (w : world) : bool * bool :=
  (g_pfnNtSuspendProcess w, g_pfnNtResumeProcess w).

(** *** Functions and vocabulary of the further properties *)

(** [static_cast<pid_t>(-1)] for the unsigned [pid_t] of this build. *)
Definition NOT_FOUND : Z := 4294967295.

(** The [do ... while (Process32NextW(...))] loop of
    [find_process_by_name], which returns at the first match. *)
Fixpoint first_match (exe_name : string) (entries : list PROCESSENTRY32W) : Z :=
  match entries with
  | [] => NOT_FOUND
  | pe32 :: rest =>
      if bool_decide (exe_name = szExeFile pe32) then th32ProcessID pe32
      else first_match exe_name rest
  end.

Definition find_process_by_name (exe_name : string) (w : world) : Z :=
  match snapshot w with
  | None => NOT_FOUND
  | Some entries => first_match exe_name entries
  end.

(** The loop of [get_parent_pid], which breaks at the first entry of the
    pid. *)
Fixpoint parent_in (pid : Z) (entries : list PROCESSENTRY32W) : Z :=
  match entries with
  | [] => NOT_FOUND
  | pe32 :: rest =>
      if bool_decide (th32ProcessID pe32 = pid) then th32ParentProcessID pe32
      else parent_in pid rest
  end.

Definition get_parent_pid (pid : Z) (w : world) : Z :=
  match snapshot w with
  | None => NOT_FOUND
  | Some entries => parent_in pid entries
  end.

(** [child_of entries x c]: the snapshot has an entry of [x] with parent
    [c]. *)
Definition child_of (entries : list PROCESSENTRY32W) (x c : Z) : Prop :=
  x ∈ children c entries.

Inductive descends (entries : list PROCESSENTRY32W) : Z → Z → Prop :=
| descends_child c x :
    child_of entries x c → descends entries c x
| descends_step c y x :
    child_of entries y c → descends entries y x → descends entries c x.

Definition works_off (w : world) (l : list Z) (k : nat) (extra : list Z) : Prop :=
  ∀ fuel tree rest,
    tree_loop (k + fuel) w tree (rest ++ l) =
      tree_loop fuel w (tree ++ extra) rest.

(** The backend is unavailable: one of the two globals is [nullptr], and
    if [init_nt_functions] has not run yet its lookups will not find both
    entry points. *)
Definition unavailable (w : world) : Prop :=
  g_pfnNtSuspendProcess w && g_pfnNtResumeProcess w = false ∧
  (initialized w = false →
   ∀ s r, ntdll w = Some (s, r) → s && r = false).

Definition is_nt_call (e : event) : bool :=
  match e with
  | EvNtSuspendProcess _ | EvNtResumeProcess _ => true
  | _ => false
  end.

End Win32.

(** ** Concrete machines *)

Module Scenarios.
Import Linux.
Open Scope string_scope.

(** The files of one process under /proc. *)
Definition proc_files (pid comm ppid : string) (cgroup : list string)
    : list (string * list string) :=
  [ ("/proc/" +:+ pid +:+ "/comm", [comm]);
    ("/proc/" +:+ pid +:+ "/stat",
     [pid +:+ " (" +:+ comm +:+ ") S " +:+ ppid +:+ " " +:+ pid +:+ " 0"]);
    ("/proc/" +:+ pid +:+ "/cgroup", cgroup) ].

Definition session_scope : list string :=
  ["0::/user.slice/user-1000.slice/session-2.scope"].

(** A desktop session seen by an unprivileged user (pid 900):
    - 1 is init, owned by root;
    - 101 and 205 are two "worker" processes of one sandboxed
      application, in cgroup /sandbox/app-1;
    - 310 is "solo", on a cgroup v1 hierarchy only;
    - 320 and 321 are two "helper" processes started from the same
      login session: one cgroup, not a sandbox;
    - 401, 402, 403 are three "job" processes, 402 owned by another user;
    - 500, 501, 502 form the chain 500 -> 501 -> 502. *)
Definition desktop : world := {|
  procs := list_to_map
    [ (1%positive, Process false false 1 true);
      (101%positive, Process false true 101 false);
      (205%positive, Process false true 101 false);
      (310%positive, Process false true 310 false);
      (320%positive, Process false true 320 false);
      (321%positive, Process false true 321 false);
      (401%positive, Process false true 401 false);
      (402%positive, Process false false 402 false);
      (403%positive, Process false true 403 false);
      (500%positive, Process false true 500 false);
      (501%positive, Process false true 500 false);
      (502%positive, Process false true 500 false);
      (900%positive, Process false true 900 false) ];
  self := 900;
  self_pgid := 900;
  proc_dir := Some
    (Dirent DT_DIR "." :: Dirent DT_DIR ".." ::
     Dirent DT_LNK "self" :: Dirent DT_REG "cpuinfo" :: Dirent DT_DIR "sys" ::
     (Dirent DT_DIR <$>
        ["502"; "1"; "101"; "205"; "310"; "320"; "321"; "401"; "402"; "403";
         "501"; "500"; "900"]));
  files := list_to_map
    (proc_files "1" "systemd" "0" ["0::/init.scope"] ++
     proc_files "101" "worker" "1" ["0::/sandbox/app-1"] ++
     proc_files "205" "worker" "101" ["0::/sandbox/app-1"] ++
     proc_files "310" "solo" "1" ["5:freezer:/"; "1:name=systemd:/user.slice"] ++
     proc_files "320" "helper" "900" session_scope ++
     proc_files "321" "helper" "900" session_scope ++
     proc_files "401" "job" "1" [] ++
     proc_files "402" "job" "1" [] ++
     proc_files "403" "job" "1" [] ++
     proc_files "500" "a" "900" session_scope ++
     proc_files "501" "b" "500" session_scope ++
     proc_files "502" "c" "501" session_scope ++
     proc_files "900" "bash" "1" session_scope);
  existing := {["/sys/fs/cgroup/cgroup.controllers"]};
  nodes := list_to_map
    [ ("/sys/fs/cgroup/sandbox/app-1/cgroup.freeze", Node true true false);
      ("/sys/fs/cgroup/user.slice/user-1000.slice/session-2.scope/cgroup.freeze",
       Node true true false) ];
  trace := []
|}.

(** The same session after "helper" 320 was taken over by another user:
    the caller may no longer signal it. *)
Definition desktop_foreign_helper : world :=
  set_procs (<[320%positive := Process false false 320 false]> (procs desktop))
    desktop.



(** A Windows machine right after start-up: the idle process has pid 0
    and is recorded as its own parent; System (pid 4) is its child. *)
Definition windows_boot : Win32.world := {|
  Win32.procs := list_to_map
    [ (0, Win32.Process 0 false false false);
      (4, Win32.Process 0 true false false);
      (1200, Win32.Process 0 true true false) ];
  Win32.snapshot := Some
    [ Win32.Entry 0 0 "[System Process]";
      Win32.Entry 4 0 "System";
      Win32.Entry 1200 4 "notepad.exe" ];
  Win32.ntdll := Some (true, true);
  Win32.token := Some (Some true);
  Win32.initialized := false;
  Win32.g_pfnNtSuspendProcess := false;
  Win32.g_pfnNtResumeProcess := false;
  Win32.trace := []
|}.

End Scenarios.

(** ** Properties of the POSIX build *)

Section linux_primitives.
Import Cxx Linux.

Lemma kill_same_fs pid sig w : same_fs w (kill pid sig w).2.
Proof.
  unfold kill. destruct pid as [|q|q]; simpl;
    repeat case_bool_decide; repeat case_match; simpl; by repeat split.
Qed.

Lemma kill_trace pid sig w :
  trace (kill pid sig w).2 = trace w ++ [EvKill pid sig].
Proof.
  unfold kill. destruct pid as [|q|q]; simpl;
    repeat case_bool_decide; repeat case_match; simpl; done.
Qed.

Lemma kill_nodes pid sig w : nodes (kill pid sig w).2 = nodes w.
Proof.
  unfold kill. destruct pid as [|q|q]; simpl;
    repeat case_bool_decide; repeat case_match; simpl; done.
Qed.

Lemma deliver_SIG0 (m : gmap positive process) : deliver SIG0 <$> m = m.
Proof. apply map_fmap_id. Qed.

(** The null signal changes no process. *)
Lemma kill_SIG0_procs pid w : procs (kill pid SIG0 w).2 = procs w.
Proof.
  unfold kill. destruct pid as [|q|q]; simpl.
  - repeat case_bool_decide; simpl; try done.
    rewrite deliver_SIG0. apply map_subseteq_union.
    etrans; apply map_filter_subseteq.
  - destruct (procs w !! q) as [p|] eqn:Hq; simpl; [|done].
    destruct (may_signal p); simpl; [|done]. by apply insert_id.
  - repeat case_bool_decide; simpl; try done.
    rewrite deliver_SIG0. apply map_subseteq_union.
    etrans; apply map_filter_subseteq.
Qed.

Lemma get_cgroup_v2_path_same_fs pid w w' :
  same_fs w w' → get_cgroup_v2_path pid w' = get_cgroup_v2_path pid w.
Proof. intros (Hf&_&_). unfold get_cgroup_v2_path. by rewrite Hf. Qed.

(** On a pid of the process table, [kill] is a lookup. *)
Lemma kill_absent q sig w :
  procs w !! q = None →
  kill (Zpos q) sig w = (Err ESRCH, log (EvKill (Zpos q) sig) w).
Proof. intros H. unfold kill. by rewrite H. Qed.

Lemma kill_denied q sig w p :
  procs w !! q = Some p → may_signal p = false →
  kill (Zpos q) sig w = (Err EPERM, log (EvKill (Zpos q) sig) w).
Proof. intros H Hp. unfold kill. by rewrite H, Hp. Qed.

Lemma kill_allowed q sig w p :
  procs w !! q = Some p → may_signal p = true →
  kill (Zpos q) sig w =
    (Ok, set_procs (<[q := deliver sig p]> (procs w))
           (log (EvKill (Zpos q) sig) w)).
Proof. intros H Hp. unfold kill. by rewrite H, Hp. Qed.

Lemma process_exists_present q w p :
  procs w !! q = Some p →
  process_exists (Zpos q) w = (true, log (EvKill (Zpos q) SIG0) w).
Proof.
  intros H. unfold process_exists, bind, ret.
  destruct (may_signal p) eqn:Hp.
  - rewrite (kill_allowed _ _ _ _ H Hp). simpl. f_equal.
    unfold set_procs, log. simpl. rewrite insert_id by done. done.
  - by rewrite (kill_denied _ _ _ _ H Hp).
Qed.

Lemma process_exists_absent q w :
  procs w !! q = None →
  process_exists (Zpos q) w = (false, log (EvKill (Zpos q) SIG0) w).
Proof. intros H. unfold process_exists, bind, ret. by rewrite kill_absent. Qed.

(** [process_exists] is a probe: it adds its call to the trace and
    changes nothing else. *)
Lemma process_exists_probe pid w :
  (process_exists pid w).2 =
    World (procs w) (self w) (self_pgid w) (proc_dir w) (files w)
          (existing w) (nodes w) (trace w ++ [EvKill pid SIG0]).
Proof.
  unfold process_exists, bind, ret.
  pose proof (kill_SIG0_procs pid w) as Hp.
  pose proof (kill_trace pid SIG0 w) as Ht.
  pose proof (kill_nodes pid SIG0 w) as Hn.
  pose proof (kill_same_fs pid SIG0 w) as (Hf&He&Hd).
  assert (self (kill pid SIG0 w).2 = self w ∧
          self_pgid (kill pid SIG0 w).2 = self_pgid w) as [Hs Hg].
  { unfold kill. destruct pid; simpl;
      repeat case_bool_decide; repeat case_match; simpl; done. }
  destruct (kill pid SIG0 w) as [r [ps s g d f e n t]]. simpl in *.
  subst. by destruct r.
Qed.

End linux_primitives.

Section linux_suspension.
Import Cxx Linux.

(** The stream operations of [set_process_suspended], taken together.
    The insertion never fails on a stream that opened, so the function
    returns true whenever the node could be opened; whether the flag
    reaches the node is decided later, when the stream is destroyed. *)
Lemma ofstream_freeze_call path (suspend : bool) w :
  (let* freeze_file := ofstream_open path in
   if negb (fail freeze_file) then
     let freeze_file :=
       ofstream_put (if suspend then "1" else "0")%string freeze_file in
     if fail freeze_file then
       let* _ := ofstream_close freeze_file in ret false
     else
       let* _ := ofstream_close freeze_file in ret true
   else
     let* _ := ofstream_close freeze_file in ret false)%sys w
  = freeze_call path suspend w.
Proof.
  unfold bind, ret, ofstream_open, freeze_call.
  destruct (nodes w !! path) as [[[] wr fr]|] eqn:Hn; [|done..].
  unfold ofstream_put, ofstream_close.
  cbn [fail is_open os_path os_buffer negb andb open_ok write_ok].
  change (nodes (log (EvOpen path) w)) with (nodes w). rewrite Hn.
  destruct suspend.
  - change (EmptyString +:+ "1")%string with "1"%string. cbn. by destruct wr.
  - change (EmptyString +:+ "0")%string with "0"%string. cbn. by destruct wr.
Qed.

(** [set_process_suspended] as a decision list: the existence probe,
    then the backend [resolve_domain] selects. *)
Lemma set_process_suspended_cases pid suspend w :
  set_process_suspended pid suspend w =
    let w1 := log (EvKill pid SIG0) w in
    if negb (process_exists pid w).1 then (false, w1)
    else match resolve_domain pid w with
         | Some d => freeze_call (freeze_file d) suspend w1
         | None =>
             let '(r, w2) := kill pid (stop_or_cont suspend) w1 in
             (match r with Ok => true | Err _ => false end, w2)
         end.
Proof.
  unfold set_process_suspended, bind at 1.
  pose proof (process_exists_probe pid w) as Hw1.
  destruct (process_exists pid w) as [alive w1] eqn:Hpe. simpl in Hw1.
  subst w1. fold (log (EvKill pid SIG0) w). simpl.
  destruct alive; simpl; [|done].
  unfold bind, gets, ret, resolve_domain. simpl.
  change (get_cgroup_v2_path pid (log (EvKill pid SIG0) w))
    with (get_cgroup_v2_path pid w).
  change (is_cgroup_v2_available (log (EvKill pid SIG0) w))
    with (is_cgroup_v2_available w).
  destruct (is_sandboxed_app (get_cgroup_v2_path pid w)
            && is_cgroup_v2_available w) eqn:Hd.
  - apply ofstream_freeze_call.
  - unfold stop_or_cont.
    destruct suspend; by destruct (kill _ _ _) as [[] w2].
Qed.

Lemma set_process_suspended_same_fs pid suspend w :
  same_fs w (set_process_suspended pid suspend w).2.
Proof.
  rewrite set_process_suspended_cases. simpl.
  destruct (negb _); [by repeat split|].
  destruct (resolve_domain pid w) as [d|].
  - unfold freeze_call. cbn [nodes log].
    destruct (nodes w !! freeze_file d) as [n|]; [|by repeat split].
    destruct (open_ok n); [|by repeat split].
    destruct (write_ok n); by repeat split.
  - pose proof (kill_same_fs pid (stop_or_cont suspend) (log (EvKill pid SIG0) w)).
    by destruct (kill _ _ _).
Qed.

(** (X6) A pid that is not in the process table: the probe is answered with
    ESRCH and nothing else happens. *)
Lemma set_process_suspended_absent q suspend w :
  procs w !! q = None →
  set_process_suspended (Zpos q) suspend w
    = (false, log (EvKill (Zpos q) SIG0) w).
Proof.
  intros H. rewrite set_process_suspended_cases.
  by rewrite process_exists_absent.
Qed.

(** [can_control_process] and [process_exists] are the same function. *)
Lemma can_control_process_is_process_exists pid w :
  can_control_process pid w = process_exists pid w.
Proof.
  unfold can_control_process, process_exists, bind, ret.
  by destruct (kill pid SIG0 w) as [[] ?].
Qed.

(** (Claim C4) A pid inside an isolation domain is acted on through the
    domain only.  Whatever the flag, the call leaves the process table and
    every control node but the domain's cgroup.freeze as they were, and
    adds to the trace its existence probe followed by nothing, by the
    opening of the domain's cgroup.freeze, or by that opening and one
    write of "1" (suspend) or "0" (resume) to it; a stop or continue
    signal is never sent.  A call that returns true has made that write,
    and when the pid passes the existence check and the node takes the
    write, the call returns true and the node holds the flag. *)
Theorem set_process_suspended_domain_only pid suspend w d :
  resolve_domain pid w = Some d →
  let r := set_process_suspended pid suspend w in
  procs r.2 = procs w ∧
  (∀ path, path ≠ freeze_file d → nodes r.2 !! path = nodes w !! path) ∧
  ∃ evs, trace r.2 = trace w ++ EvKill pid SIG0 :: evs ∧
         (evs = [] ∨ evs = [EvOpen (freeze_file d)] ∨
          evs = [EvOpen (freeze_file d);
                 EvWrite (freeze_file d) (flag suspend)]) ∧
         Forall (λ e, ∀ p sig, e ≠ EvKill p sig) evs ∧
         (r.1 = true →
            evs = [EvOpen (freeze_file d);
                   EvWrite (freeze_file d) (flag suspend)]) ∧
         ((process_exists pid w).1 = true →
          writable (freeze_file d) w = true →
            r.1 = true ∧
            frozen <$> nodes r.2 !! freeze_file d = Some suspend).
Proof.
  intros Hd r. subst r. rewrite set_process_suspended_cases, Hd. cbv zeta.
  destruct (process_exists pid w).1 eqn:He; cbn [negb].
  2:{ cbn [fst snd]. split; [done|]. split; [done|].
      exists []. split_and!; eauto; done. }
  unfold freeze_call, writable. cbn [nodes log]. fold (flag suspend).
  destruct (nodes w !! freeze_file d) as [[o wr fr]|] eqn:Hn;
    cbn [open_ok write_ok].
  2:{ cbn [fst snd]. split; [done|]. split; [done|].
      exists [EvOpen (freeze_file d)]. cbn. rewrite <-app_assoc.
      split_and!; eauto; try done; try by repeat constructor. }
  destruct o; cbn [andb fst snd].
  2:{ split; [done|]. split; [done|].
      exists [EvOpen (freeze_file d)]. cbn. rewrite <-app_assoc.
      split_and!; eauto; try done; try by repeat constructor. }
  destruct wr.
  - cbn [procs nodes set_nodes log trace]. split; [done|]. split.
    { intros path Hne. by rewrite lookup_insert_ne. }
    eexists. rewrite <-!app_assoc. cbn [app].
    split_and!; [done|by right; right|by repeat constructor|done|].
    intros _ _. split; [done|]. by rewrite lookup_insert_eq.
  - cbn [procs nodes log trace]. split; [done|]. split; [done|].
    eexists. rewrite <-!app_assoc. cbn [app].
    split_and!; [done|by right; right|by repeat constructor|done|done].
Qed.

Lemma set_process_suspended_domain_only_witness :
  let w := Scenarios.desktop in
  let node := "/sys/fs/cgroup/sandbox/app-1/cgroup.freeze"%string in
  let r := set_process_suspended 205 true w in
  resolve_domain 205 w = Some "/sys/fs/cgroup/sandbox/app-1"%string ∧
  frozen <$> nodes w !! node = Some false ∧
  r.1 = true ∧
  trace r.2 = [EvKill 205 SIG0; EvOpen node; EvWrite node "1"] ∧
  procs r.2 = procs w ∧
  frozen <$> nodes r.2 !! node = Some true.
Proof.
  intros w node r.
  assert (resolve_domain 205 w = Some "/sys/fs/cgroup/sandbox/app-1"%string)
    as H by (vm_compute; reflexivity).
  split; [exact H|]. split; [vm_compute; reflexivity|].
  destruct (set_process_suspended_domain_only 205 true _ _ H)
    as (Hp&_&evs&Ht&_&_&Hev&Hok).
  destruct Hok as [Hr Hfr]; [vm_compute; reflexivity..|].
  rewrite (Hev Hr) in Ht.
  split; [exact Hr|]. split; [exact Ht|]. split; [exact Hp|exact Hfr].
Defined.

(** (Claim C7) Suspend and resume are idempotent in outcome.  For a
    process of the table that the caller may control, asking for the state
    the process is already in (suspend when Suspended, resume when
    Running) returns true and leaves the process in that state. *)
Theorem set_process_suspended_idempotent q w suspend :
  controllable q w = true →
  is_suspended q w = suspend →
  let r := set_process_suspended (Zpos q) suspend w in
  r.1 = true ∧ is_suspended q r.2 = suspend.
Proof.
  unfold controllable, is_suspended.
  destruct (procs w !! q) as [p|] eqn:Hq; [|done].
  intros Hc Hs.
  rewrite set_process_suspended_cases, (process_exists_present _ _ _ Hq).
  cbv zeta. cbn [fst negb].
  destruct (resolve_domain (Zpos q) w) as [d|] eqn:Hd.
  - assert (d = get_cgroup_v2_path (Zpos q) w) as Hpath.
    { unfold resolve_domain in Hd. by destruct (_ && _); simplify_eq. }
    unfold writable in Hc. unfold freeze_call. cbn [nodes log].
    destruct (nodes w !! freeze_file d) as [n|] eqn:Hn; [|done].
    apply andb_true_iff in Hc as [-> ->]. simpl. split; [done|].
    rewrite Hq. unfold cgroup_frozen. simpl.
    change (get_cgroup_v2_path (Zpos q) _) with (get_cgroup_v2_path (Zpos q) w).
    rewrite <-Hpath, lookup_insert_eq. simpl.
    destruct suspend; simpl.
    + apply orb_true_r.
    + apply orb_false_iff in Hs as [-> _]. done.
  - pose proof (kill_allowed q (stop_or_cont suspend)
                  (log (EvKill (Zpos q) SIG0) w) p Hq Hc) as Hk.
    rewrite Hk. simpl. split; [done|].
    rewrite lookup_insert_eq. unfold cgroup_frozen in *. simpl.
    change (get_cgroup_v2_path (Zpos q) _) with (get_cgroup_v2_path (Zpos q) w).
    destruct suspend; simpl.
    + by destruct (unkillable p).
    + apply orb_false_iff in Hs as [_ ->]. done.
Qed.

Lemma set_process_suspended_idempotent_witness :
  let running := Scenarios.desktop in
  let stopped := (set_process_suspended 310 true Scenarios.desktop).2 in
  (controllable 310 running = true ∧ is_suspended 310 running = false ∧
   (set_process_suspended 310 false running).1 = true ∧
   is_suspended 310 (set_process_suspended 310 false running).2 = false) ∧
  (controllable 310 stopped = true ∧ is_suspended 310 stopped = true ∧
   (set_process_suspended 310 true stopped).1 = true ∧
   is_suspended 310 (set_process_suspended 310 true stopped).2 = true).
Proof.
  intros running stopped.
  assert (controllable 310 running = true) as C1 by (vm_compute; reflexivity).
  assert (is_suspended 310 running = false) as S1 by (vm_compute; reflexivity).
  assert (controllable 310 stopped = true) as C2 by (vm_compute; reflexivity).
  assert (is_suspended 310 stopped = true) as S2 by (vm_compute; reflexivity).
  split.
  - split; [exact C1|]. split; [exact S1|].
    exact (set_process_suspended_idempotent 310 running false C1 S1).
  - split; [exact C2|]. split; [exact S2|].
    exact (set_process_suspended_idempotent 310 stopped true C2 S2).
Defined.

(** (Claim C3) The existence check lets the pid -1 through.  No process
    has pid -1, which is also what [find_process_by_name] returns when
    nothing matches; but [kill(-1, 0)] addresses every process the caller
    may signal and succeeds, so [process_exists] answers true and
    [set_process_suspended] goes on to stop all of them and reports
    success. *)
Theorem set_process_suspended_minus_one :
  find_process_by_name "no-such-program" Scenarios.desktop = -1 ∧
  (process_exists (-1) Scenarios.desktop).1 = true ∧
  let r := set_process_suspended (-1) true Scenarios.desktop in
  r.1 = true ∧
  trace r.2 = [EvKill (-1) SIG0; EvKill (-1) SIGSTOP] ∧
  is_suspended 101 r.2 = true ∧ is_suspended 310 r.2 = true ∧
  is_suspended 500 r.2 = true.
Proof. vm_compute. repeat split. Qed.

(** (Claim C6) On this build [can_control_process] answers true for a
    process the caller has no right to signal: init (pid 1) rejects the
    probe with EPERM, the function returns true, and the suspend that
    follows fails. *)
Theorem can_control_process_accepts_denied :
  (kill 1 SIG0 Scenarios.desktop).1 = Err EPERM ∧
  controllable 1 Scenarios.desktop = false ∧
  (can_control_process 1 Scenarios.desktop).1 = true ∧
  (set_process_suspended 1 true Scenarios.desktop).1 = false.
Proof. vm_compute. repeat split. Qed.

(** The same for every process that rejects the caller's signals. *)
Lemma can_control_process_denied q w p :
  procs w !! q = Some p → may_signal p = false →
  (can_control_process (Zpos q) w).1 = true ∧
  (kill (Zpos q) SIGSTOP w).1 = Err EPERM ∧
  (kill (Zpos q) SIGCONT w).1 = Err EPERM.
Proof.
  intros Hq Hp.
  rewrite can_control_process_is_process_exists,
    (process_exists_present _ _ _ Hq), !(kill_denied _ _ _ _ Hq Hp). done.
Qed.

End linux_suspension.

Section linux_batch.
Import Cxx Linux.

(** Every call opens with the probe of its pid and probes nothing else. *)
Lemma set_process_suspended_trace pid suspend w :
  ∃ evs, trace (set_process_suspended pid suspend w).2
           = trace w ++ EvKill pid SIG0 :: evs ∧ probed evs = [].
Proof.
  rewrite set_process_suspended_cases. cbv zeta.
  destruct (negb _); [by exists []|].
  destruct (resolve_domain pid w) as [d|].
  - unfold freeze_call. cbn [nodes log]. fold (flag suspend).
    destruct (nodes w !! freeze_file d) as [n|]; simpl.
    2:{ exists [EvOpen (freeze_file d)]. by rewrite <-app_assoc. }
    destruct (open_ok n); simpl.
    2:{ exists [EvOpen (freeze_file d)]. by rewrite <-app_assoc. }
    exists [EvOpen (freeze_file d); EvWrite (freeze_file d) (flag suspend)].
    destruct (write_ok n); simpl; by rewrite <-!app_assoc.
  - pose proof (kill_trace pid (stop_or_cont suspend)
                  (log (EvKill pid SIG0) w)) as Ht.
    destruct (kill _ _ _) as [r w2]. simpl in *.
    exists [EvKill pid (stop_or_cont suspend)].
    rewrite Ht, <-app_assoc. by destruct suspend.
Qed.

Lemma batch_units_same_fs pids handled w w' :
  same_fs w w' → batch_units pids handled w' = batch_units pids handled w.
Proof.
  intros Hfs. revert handled.
  induction pids as [|pid rest IH]; intros handled; simpl; [done|].
  rewrite (get_cgroup_v2_path_same_fs _ _ _ Hfs).
  destruct (_ && _); [done|]. by rewrite IH.
Qed.

(** The loop of the batch functions attempts its units one after the
    other and adds up the successes. *)
Lemma batch_loop_attempt_all suspend pids handled count w :
  batch_loop suspend pids handled count w =
    let r := attempt_all suspend (batch_units pids handled w) w in
    (count + successes r.1, r.2).
Proof.
  revert handled count w.
  induction pids as [|pid rest IH]; intros handled count w.
  { cbn. unfold ret, successes. cbn. f_equal. lia. }
  cbn [batch_loop batch_units]. unfold bind at 1, gets at 1.
  destruct (negb (empty (get_cgroup_v2_path pid w))
            && bool_decide (get_cgroup_v2_path pid w ∈ handled)) eqn:Hskip.
  { apply IH. }
  cbn [attempt_all]. unfold bind, ret.
  pose proof (set_process_suspended_same_fs pid suspend w) as Hfs.
  destruct (set_process_suspended pid suspend w) as [ok w1].
  cbn [snd] in Hfs.
  rewrite IH, (batch_units_same_fs _ _ _ _ Hfs). cbv zeta.
  destruct (attempt_all suspend _ w1) as [oks w2].
  cbn [fst snd]. f_equal. unfold successes. destruct ok.
  - rewrite filter_cons_True by done. cbn [length]. lia.
  - rewrite filter_cons_False by done. done.
Qed.

Lemma attempt_all_length suspend units w :
  length (attempt_all suspend units w).1 = length units.
Proof.
  revert w. induction units as [|pid rest IH]; intros w; simpl; [done|].
  unfold bind, ret.
  destruct (set_process_suspended pid suspend w) as [ok w1].
  specialize (IH w1). destruct (attempt_all suspend rest w1). simpl in *.
  by rewrite IH.
Qed.

Lemma probed_app evs1 evs2 : probed (evs1 ++ evs2) = probed evs1 ++ probed evs2.
Proof. apply omap_app. Qed.

Lemma attempt_all_trace suspend units w :
  ∃ evs, trace (attempt_all suspend units w).2 = trace w ++ evs ∧
         probed evs = units.
Proof.
  revert w. induction units as [|pid rest IH]; intros w; simpl.
  { exists []. by rewrite app_nil_r. }
  unfold bind, ret.
  destruct (set_process_suspended_trace pid suspend w) as (evs1&Ht1&Hp1).
  destruct (set_process_suspended pid suspend w) as [ok w1]. simpl in *.
  destruct (IH w1) as (evs2&Ht2&Hp2).
  destruct (attempt_all suspend rest w1) as [oks w2]. simpl in *.
  exists (EvKill pid SIG0 :: evs1 ++ evs2). split.
  - rewrite Ht2, Ht1, <-app_assoc. done.
  - simpl. fold (probed (evs1 ++ evs2)). by rewrite probed_app, Hp1, Hp2.
Qed.

Lemma batch_continue_on_error_units suspend exe_name w :
  let units := batch_units (find_all_processes_by_name exe_name w) ∅ w in
  let r := attempt_all suspend units w in
  (if suspend then suspend_processes_by_name exe_name w
   else resume_processes_by_name exe_name w) = (successes r.1, r.2) ∧
  ∃ evs, trace r.2 = trace w ++ evs ∧ probed evs = units.
Proof.
  intros units r. split.
  - unfold suspend_processes_by_name, resume_processes_by_name.
    unfold bind, gets. destruct suspend; by rewrite batch_loop_attempt_all.
  - apply attempt_all_trace.
Qed.

(** The loop of the batch functions has no exit but its end.  The pids
    it acts on are fixed by the matched pids and their cgroup paths
    alone, never by the outcome of an earlier call; both
    [suspend_processes_by_name] and [resume_processes_by_name] call
    [set_process_suspended] on every one of them in order (each call
    shows in the trace as the existence probe of its pid, and no other
    pid is probed), and the count they return is the number of calls
    that returned true. *)
Lemma batch_loop_continues suspend exe_name w :
  let units := batch_units (find_all_processes_by_name exe_name w) ∅ w in
  let r := attempt_all suspend units w in
  (if suspend then suspend_processes_by_name exe_name w
   else resume_processes_by_name exe_name w) = (successes r.1, r.2) ∧
  length r.1 = length units ∧
  ∃ evs, trace r.2 = trace w ++ evs ∧ probed evs = units.
Proof.
  intros units r.
  destruct (batch_continue_on_error_units suspend exe_name w) as [Heq Htr].
  split_and!; [exact Heq|apply attempt_all_length|exact Htr].
Qed.

(** One of three "job" processes rejects the signal: the other two are
    stopped and the count is 2. *)
Example suspend_jobs_partial_failure :
  let r := suspend_processes_by_name "job" Scenarios.desktop in
  r.1 = 2 ∧
  trace r.2 = [EvKill 401 SIG0; EvKill 401 SIGSTOP;
               EvKill 402 SIG0; EvKill 402 SIGSTOP;
               EvKill 403 SIG0; EvKill 403 SIGSTOP] ∧
  is_suspended 401 r.2 = true ∧ is_suspended 402 r.2 = false ∧
  is_suspended 403 r.2 = true.
Proof. vm_compute. repeat split. Qed.

Lemma resolve_domain_Some pid w d :
  resolve_domain pid w = Some d →
  get_cgroup_v2_path pid w = d ∧ empty d = false.
Proof.
  unfold resolve_domain, is_sandboxed_app.
  destruct (empty (get_cgroup_v2_path pid w)) eqn:He; simpl; [done|].
  destruct (_ && _); intros; by simplify_eq.
Qed.

Lemma empty_spec s : empty s = true ↔ s = EmptyString.
Proof. by destruct s. Qed.

(** What the units of a batch are: every matched pid without a cgroup v2
    path, and for each cgroup v2 path among the matched pids that is not
    handled yet one pid, the first with that path. *)
Lemma batch_units_spec pids handled w :
  let units := batch_units pids handled w in
  units `sublist_of` pids ∧
  pathless w units = pathless w pids ∧
  NoDup (cgroup_paths w units) ∧
  ∀ path, path ∈ cgroup_paths w units ↔
          path ∈ cgroup_paths w pids ∧ path ∉ handled.
Proof.
  unfold pathless, cgroup_paths. revert handled.
  induction pids as [|pid rest IH]; intros handled; cbn [batch_units].
  { cbn. split_and!; [done|done|constructor|]. intros path.
    rewrite elem_of_nil. tauto. }
  destruct (empty (get_cgroup_v2_path pid w)) eqn:He; cbn [negb andb].
  - apply empty_spec in He. destruct (IH handled) as (Hsub&Hpl&Hnd&Hin).
    cbn zeta in *. rewrite !fmap_cons, !(filter_cons_True _ pid) by done.
    rewrite !filter_cons_False by (by rewrite He; intros H; apply H).
    split_and!; [by constructor|by f_equal|done|done].
  - assert (get_cgroup_v2_path pid w ≠ EmptyString) as Hne.
    { intros H. apply empty_spec in H. congruence. }
    case_bool_decide as Hh.
    + destruct (IH handled) as (Hsub&Hpl&Hnd&Hin). cbn zeta in *.
      rewrite fmap_cons, (filter_cons_False _ pid), filter_cons_True by done.
      split_and!; [by constructor|done|done|]. intros path.
      rewrite Hin, elem_of_cons. split; [tauto|].
      intros [[->|?] ?]; done.
    + destruct (IH ({[get_cgroup_v2_path pid w]} ∪ handled))
        as (Hsub&Hpl&Hnd&Hin). cbn zeta in *.
      rewrite !fmap_cons, !(filter_cons_False _ pid), !filter_cons_True by done.
      split_and!; [by constructor|done| |].
      * constructor; [|done]. rewrite Hin. intros [_ Hn].
        apply Hn, elem_of_union. left. by apply elem_of_singleton.
      * intros path. rewrite !elem_of_cons, Hin, not_elem_of_union,
          not_elem_of_singleton. split.
        -- intros [->|(?&?&?)]; [split; [by left|done]|split; [by right|done]].
        -- intros [[->|?] ?]; [by left|].
           destruct (decide (path = get_cgroup_v2_path pid w)) as [->|?];
             [by left|by right].
Qed.

(** Pids of a cgroup already handled in the batch are no units. *)
Lemma batch_units_handled pids handled w d :
  (∀ pid, pid ∈ pids → get_cgroup_v2_path pid w = d) →
  empty d = false → d ∈ handled →
  batch_units pids handled w = [].
Proof.
  intros Hall He Hin. induction pids as [|pid rest IH]; simpl; [done|].
  rewrite (Hall pid) by set_solver. rewrite He, bool_decide_true by done.
  simpl. apply IH. intros. apply Hall. set_solver.
Qed.

(** Pids without a cgroup v2 path are units, each on its own. *)
Lemma batch_units_no_cgroup pids handled w :
  (∀ pid, pid ∈ pids → get_cgroup_v2_path pid w = EmptyString) →
  batch_units pids handled w = pids.
Proof.
  intros Hall. induction pids as [|pid rest IH]; simpl; [done|].
  rewrite (Hall pid) by set_solver. simpl. f_equal.
  apply IH. intros. apply Hall. set_solver.
Qed.

(** (Claim C1, as the code has it) When every pid matching the name
    resolves to one isolation domain and the first of them passes the
    existence check, [suspend_processes_by_name] opens the domain's
    cgroup.freeze exactly once, writes to it at most once, probes no pid
    but the first, sends no signal and leaves the process table alone;
    the count it returns is never more than 1.  When the freeze goes
    through (the node opens and takes the write) there is exactly one
    write of "1", the node holds the flag and the count is 1: the domain
    is one unit, however many pids it holds.  When the node cannot be
    opened the count is 0 and no node has changed. *)
Theorem suspend_shared_domain exe_name w p0 rest d :
  find_all_processes_by_name exe_name w = p0 :: rest →
  (∀ pid, pid ∈ p0 :: rest → resolve_domain pid w = Some d) →
  (process_exists p0 w).1 = true →
  let r := suspend_processes_by_name exe_name w in
  procs r.2 = procs w ∧ 0 ≤ r.1 ≤ 1 ∧
  ∃ evs, trace r.2 = trace w ++ evs ∧
         opened evs = [freeze_file d] ∧ probed evs = [p0] ∧
         (evs = [EvKill p0 SIG0; EvOpen (freeze_file d)] ∨
          evs = [EvKill p0 SIG0; EvOpen (freeze_file d);
                 EvWrite (freeze_file d) "1"]) ∧
         (writable (freeze_file d) w = true →
            r.1 = 1 ∧
            evs = [EvKill p0 SIG0; EvOpen (freeze_file d);
                   EvWrite (freeze_file d) "1"] ∧
            frozen <$> nodes r.2 !! freeze_file d = Some true) ∧
         (openable (freeze_file d) w = false →
            r.1 = 0 ∧ nodes r.2 = nodes w).
Proof.
  intros Hfind Hall Hex r. subst r.
  unfold suspend_processes_by_name, bind, gets.
  rewrite batch_loop_attempt_all, Hfind. cbv zeta.
  destruct (resolve_domain_Some _ _ _ (Hall p0 ltac:(set_solver))) as [Hp0 He].
  cbn [batch_units]. rewrite Hp0, He, bool_decide_false by set_solver.
  cbn [negb andb].
  rewrite (batch_units_handled rest _ w d); [|intros pid Hin|done|set_solver].
  2:{ apply (resolve_domain_Some pid w d), Hall. set_solver. }
  cbn [attempt_all]. unfold bind, ret.
  rewrite set_process_suspended_cases, Hex, (Hall p0) by set_solver.
  cbv zeta. cbn [negb]. unfold freeze_call, writable, openable.
  change (nodes (log _ w)) with (nodes w).
  destruct (nodes w !! freeze_file d) as [[o wr fr]|] eqn:Hn;
    cbn [open_ok write_ok].
  2:{ cbn. split; [done|]. split; [done|].
      exists [EvKill p0 SIG0; EvOpen (freeze_file d)].
      rewrite <-app_assoc. split_and!; try done. by left. }
  destruct o; cbn [andb].
  2:{ cbn. split; [done|]. split; [done|].
      exists [EvKill p0 SIG0; EvOpen (freeze_file d)].
      rewrite <-app_assoc. split_and!; try done. by left. }
  destruct wr; cbn; (split; [done|]); (split; [done|]);
    exists [EvKill p0 SIG0; EvOpen (freeze_file d); EvWrite (freeze_file d) "1"];
    rewrite <-!app_assoc; split_and!; try done; try (by right).
  intros _. split_and!; try done. by rewrite lookup_insert_eq.
Qed.

Lemma suspend_shared_domain_witness :
  let w := Scenarios.desktop in
  let node := "/sys/fs/cgroup/sandbox/app-1/cgroup.freeze"%string in
  let r := suspend_processes_by_name "worker" w in
  find_all_processes_by_name "worker" w = [101; 205] ∧
  procs r.2 = procs w ∧
  r.1 = 1 ∧
  trace r.2 = [EvKill 101 SIG0; EvOpen node; EvWrite node "1"] ∧
  frozen <$> nodes r.2 !! node = Some true.
Proof.
  intros w node r.
  assert (find_all_processes_by_name "worker" w = [101; 205])
    as Hfind by (vm_compute; reflexivity).
  split; [exact Hfind|].
  destruct (suspend_shared_domain "worker" w 101 [205]
              "/sys/fs/cgroup/sandbox/app-1" Hfind)
    as (Hp&_&evs&Ht&_&_&_&Hok&_).
  - intros pid Hin. apply elem_of_cons in Hin as [->|Hin].
    + vm_compute; reflexivity.
    + apply list_elem_of_singleton in Hin as ->. vm_compute; reflexivity.
  - vm_compute; reflexivity.
  - destruct Hok as (Hc&Hev&Hfr); [vm_compute; reflexivity|].
    rewrite Hev in Ht.
    split; [exact Hp|]. split; [exact Hc|]. split; [exact Ht|exact Hfr].
Defined.

(** (Claim C1, as stated) Two "worker" pids in one sandbox: the domain
    is frozen by one write, and the count returned is 1, not the number
    of pids. *)
Lemma suspend_shared_domain_counts_one :
  let w := Scenarios.desktop in
  let r := suspend_processes_by_name "worker" w in
  find_all_processes_by_name "worker" w = [101; 205] ∧
  resolve_domain 101 w = Some "/sys/fs/cgroup/sandbox/app-1"%string ∧
  resolve_domain 205 w = Some "/sys/fs/cgroup/sandbox/app-1"%string ∧
  trace r.2 = [EvKill 101 SIG0;
               EvOpen "/sys/fs/cgroup/sandbox/app-1/cgroup.freeze";
               EvWrite "/sys/fs/cgroup/sandbox/app-1/cgroup.freeze" "1"] ∧
  is_suspended 101 r.2 = true ∧ is_suspended 205 r.2 = true ∧
  r.1 = 1 ∧
  r.1 ≠ Z.of_nat (length (find_all_processes_by_name "worker" w)).
Proof. vm_compute. repeat split. discriminate. Qed.

(** (Claim C2) Two "helper" processes of one login session share a
    cgroup that is no sandbox, so neither has an isolation domain and the
    Suspension Engine signals each pid on its own.  The batch takes the
    second for a duplicate of the first all the same: 321 is neither
    probed nor signalled and keeps running. *)
Theorem suspend_skips_domainless_pid :
  let w := Scenarios.desktop in
  let r := suspend_processes_by_name "helper" w in
  find_all_processes_by_name "helper" w = [320; 321] ∧
  resolve_domain 320 w = None ∧ resolve_domain 321 w = None ∧
  trace (set_process_suspended 321 true w).2
    = [EvKill 321 SIG0; EvKill 321 SIGSTOP] ∧
  r.1 = 1 ∧
  trace r.2 = [EvKill 320 SIG0; EvKill 320 SIGSTOP] ∧
  is_suspended 320 r.2 = true ∧ is_suspended 321 r.2 = false.
Proof. vm_compute. repeat split. Qed.

(** Matched pids without any cgroup v2 path are all acted on, each on
    its own. *)
Lemma batch_acts_on_each_pid_without_cgroup (suspend : bool) exe_name w :
  (∀ pid, pid ∈ find_all_processes_by_name exe_name w →
          get_cgroup_v2_path pid w = EmptyString) →
  ∃ evs,
    trace (if suspend then suspend_processes_by_name exe_name w
           else resume_processes_by_name exe_name w).2 = trace w ++ evs ∧
    probed evs = find_all_processes_by_name exe_name w.
Proof.
  intros Hall.
  destruct (batch_continue_on_error_units suspend exe_name w) as (Heq&evs&Ht&Hp).
  rewrite Heq. exists evs. split; [done|].
  by rewrite Hp, batch_units_no_cgroup.
Qed.

(** The scenario of the specification: one "solo" process without a
    domain is signalled directly and counted once. *)
Example suspend_solo :
  let r := suspend_processes_by_name "solo" Scenarios.desktop in
  resolve_domain 310 Scenarios.desktop = None ∧
  r.1 = 1 ∧ trace r.2 = [EvKill 310 SIG0; EvKill 310 SIGSTOP].
Proof. vm_compute. repeat split. Qed.

(** Where the loop's units are the specification's.  The loop skips a
    pid whose cgroup path it has seen; the specification skips a pid
    whose isolation domain was acted on.  The two agree on a list of pids
    in which every pid without a domain has no cgroup path either. *)
Lemma batch_units_spec_units pids handled w :
  (∀ pid, pid ∈ pids → resolve_domain pid w = None →
          get_cgroup_v2_path pid w = EmptyString) →
  batch_units pids handled w = spec_units pids handled w.
Proof.
  revert handled. induction pids as [|pid rest IH]; intros handled Hall;
    cbn [batch_units spec_units]; [done|].
  assert (∀ h, batch_units rest h w = spec_units rest h w) as IH'.
  { intros h. apply IH. intros pid' Hin. apply Hall. set_solver. }
  destruct (resolve_domain pid w) as [d|] eqn:Hd.
  - destruct (resolve_domain_Some _ _ _ Hd) as [-> ->]. cbn [negb andb].
    case_bool_decide; by rewrite IH'.
  - rewrite (Hall pid) by (done || set_solver). cbn [empty negb andb].
    by rewrite IH'.
Qed.

(** On such a name the batch is continue-on-error over the units of the
    specification: each is attempted in turn and the count is the number
    of successes. *)
Lemma batch_continue_on_error_spec_units (suspend : bool) exe_name w :
  let pids := find_all_processes_by_name exe_name w in
  (∀ pid, pid ∈ pids → resolve_domain pid w = None →
          get_cgroup_v2_path pid w = EmptyString) →
  let r := attempt_all suspend (spec_units pids ∅ w) w in
  (if suspend then suspend_processes_by_name exe_name w
   else resume_processes_by_name exe_name w) = (successes r.1, r.2) ∧
  ∃ evs, trace r.2 = trace w ++ evs ∧ probed evs = spec_units pids ∅ w.
Proof.
  intros pids Hall. cbv zeta.
  rewrite <-(batch_units_spec_units pids ∅ w Hall).
  apply batch_continue_on_error_units.
Qed.

(** (Claim C5) After a failure the batch leaves out a unit.  Two "helper"
    processes share the cgroup of their login session, which is no
    sandbox: neither has an isolation domain, so each is a unit of its
    own, and attempting both units stops 321 and counts 1.  The caller
    may not signal 320.  [suspend_processes_by_name] fails on 320 and
    then takes 321 for a duplicate of it: 321 is never probed nor
    signalled, keeps running, and the count is 0. *)
Theorem batch_drops_unit_after_failure :
  let w := Scenarios.desktop_foreign_helper in
  let pids := find_all_processes_by_name "helper" w in
  let units := spec_units pids ∅ w in
  let attempted := attempt_all true units w in
  let r := suspend_processes_by_name "helper" w in
  pids = [320; 321] ∧
  resolve_domain 320 w = None ∧ resolve_domain 321 w = None ∧
  units = [320; 321] ∧
  controllable 320 w = false ∧ controllable 321 w = true ∧
  attempted.1 = [false; true] ∧ successes attempted.1 = 1 ∧
  is_suspended 321 attempted.2 = true ∧
  r.1 = 0 ∧
  trace r.2 = [EvKill 320 SIG0; EvKill 320 SIGSTOP] ∧
  is_suspended 321 r.2 = false.
Proof. vm_compute. repeat split. Qed.

End linux_batch.

Section linux_tree.
Import Cxx Linux.

Lemma pop_back_snoc {A} (v : list A) x : pop_back (v ++ [x]) = Some (x, v).
Proof. unfold pop_back. by rewrite reverse_snoc, reverse_involutive. Qed.


Lemma tree_loop_done fuel w tree : tree_loop fuel w tree [] = Some tree.
Proof. by destruct fuel. Qed.

Lemma tree_loop_pop fuel w entries tree rest x :
  proc_dir w = Some entries →
  tree_loop (S fuel) w tree (rest ++ [x]) =
    tree_loop fuel w (tree ++ children x w entries)
      (rest ++ children x w entries).
Proof. intros Hd. cbn [tree_loop]. by rewrite pop_back_snoc, Hd. Qed.

Section walk.
Context (w : world) (entries : list dirent).
Hypothesis Hdir : proc_dir w = Some entries.

Lemma works_off_nil : works_off w [] 0 [].
Proof. intros fuel tree rest. by rewrite !app_nil_r. Qed.

Lemma works_off_snoc l y k1 extra1 k2 extra2 :
  works_off w [y] k1 extra1 → works_off w l k2 extra2 →
  works_off w (l ++ [y]) (k1 + k2) (extra1 ++ extra2).
Proof.
  intros Hy Hl fuel tree rest.
  rewrite (assoc_L (++)), <-(assoc_L Nat.add), Hy, Hl.
  by rewrite (assoc_L (++)).
Qed.

Lemma works_off_node x k extra :
  works_off w (children x w entries) k extra →
  works_off w [x] (S k) (children x w entries ++ extra).
Proof.
  intros Hch fuel tree rest.
  change (S k + fuel)%nat with (S (k + fuel)).
  rewrite (tree_loop_pop _ _ _ _ _ _ Hdir), Hch.
  by rewrite (assoc_L (++)).
Qed.

(** A stack of pids that each can be worked off can be worked off. *)
Lemma works_off_list (l : list Z) :
  (∀ y, y ∈ l → ∃ k extra, works_off w [y] k extra ∧
                 ∀ z, z ∈ extra ↔ descends w entries y z) →
  ∃ k extra, works_off w l k extra ∧
             ∀ z, z ∈ extra ↔ ∃ y, y ∈ l ∧ descends w entries y z.
Proof.
  induction l as [|y l IH] using rev_ind; intros Hall.
  { exists 0%nat, []. split; [apply works_off_nil|].
    intros z. split; [by intros ?%elem_of_nil|by intros (?&?%elem_of_nil&_)]. }
  destruct (Hall y) as (k1&extra1&H1&Hd1).
  { apply elem_of_app. right. by apply list_elem_of_singleton. }
  destruct IH as (k2&extra2&H2&Hd2).
  { intros y' Hy'. apply Hall, elem_of_app. by left. }
  exists (k1 + k2)%nat, (extra1 ++ extra2).
  split; [by apply works_off_snoc|]. intros z.
  rewrite elem_of_app, Hd1, Hd2. split.
  - intros [?|(y'&?&?)]; [exists y|exists y']; (split; [|done]);
      apply elem_of_app; [right|by left]. by apply list_elem_of_singleton.
  - intros (y'&Hin&?). apply elem_of_app in Hin as [?|Hin]; [right; eauto|].
    apply list_elem_of_singleton in Hin as ->. by left.
Qed.

(** The walk below a pid ends when no chain of children starting at
    it goes on for ever, and it collects the descendants of the pid. *)
Lemma works_off_acc x :
  Acc (child_of w entries) x →
  ∃ k extra, works_off w [x] k extra ∧
             ∀ z, z ∈ extra ↔ descends w entries x z.
Proof.
  induction 1 as [x _ IH].
  destruct (works_off_list (children x w entries)) as (k&extra&Hw&Hd).
  { intros y Hy. by apply IH. }
  exists (S k), (children x w entries ++ extra).
  split; [by apply works_off_node|]. intros z.
  rewrite elem_of_app, Hd. split.
  - intros [?|(y&?&?)]; [by apply descends_child|by eapply descends_step].
  - inversion 1; simplify_eq; [by left|right; eauto].
Qed.

End walk.

(** [get_process_tree] is correct on every process table in which the
    chains of children below the root are finite: it returns, the root
    comes first, and the pids returned are the root and its
    descendants. *)
Lemma get_process_tree_correct w entries root :
  proc_dir w = Some entries →
  Acc (child_of w entries) root →
  ∃ k rest, (∀ fuel, (k ≤ fuel)%nat →
               get_process_tree fuel root w = Some (root :: rest)) ∧
            ∀ z, z ∈ rest ↔ descends w entries root z.
Proof.
  intros Hdir Hacc.
  destruct (works_off_acc w entries Hdir root Hacc) as (k&extra&Hw&Hd).
  exists k, extra. split; [|done]. intros fuel Hle.
  replace fuel with (k + (fuel - k))%nat by lia.
  unfold get_process_tree.
  pose proof (Hw (fuel - k)%nat [root] []) as Hrun. cbn [app] in Hrun.
  rewrite Hrun. apply tree_loop_done.
Qed.



(** On the machine of the scenarios the bound is 3 iterations and the
    tree comes out in the order of discovery. *)
Example get_process_tree_chain_desktop :
  get_process_tree 3 500 Scenarios.desktop = Some [500; 501; 502] ∧
  get_process_tree 2 500 Scenarios.desktop = None.
Proof. vm_compute. done. Qed.

(** (X17) A root nobody names as parent, in the process table or not, gives
    the one-element tree; so does a /proc that cannot be opened. *)
Lemma get_process_tree_childless w root fuel :
  match proc_dir w with
  | Some entries => children root w entries = []
  | None => True
  end →
  (1 ≤ fuel)%nat →
  get_process_tree fuel root w = Some [root].
Proof.
  intros Hch Hle. destruct fuel as [|fuel]; [lia|].
  unfold get_process_tree. cbn [tree_loop].
  rewrite (pop_back_snoc [] root : pop_back [root] = _).
  destruct (proc_dir w) as [entries|].
  - rewrite Hch. simpl. apply tree_loop_done.
  - apply tree_loop_done.
Qed.

(** Whenever the walk returns, the root is the first pid of the tree. *)
Lemma tree_loop_prefix fuel w tree to_check result :
  tree_loop fuel w tree to_check = Some result → tree `prefix_of` result.
Proof.
  revert tree to_check.
  induction fuel as [|fuel IH]; intros tree to_check; cbn [tree_loop].
  - destruct (pop_back to_check) as [[]|]; [done|]. by intros [= ->].
  - destruct (pop_back to_check) as [[current rest]|]; [|by intros [= ->]].
    destruct (proc_dir w) as [entries|]; [|apply IH].
    intros H. apply IH in H. etrans; [|done]. by apply prefix_app_r.
Qed.

Lemma get_process_tree_root_first fuel w root result :
  get_process_tree fuel root w = Some result → head result = Some root.
Proof.
  intros H. apply tree_loop_prefix in H as [rest ->]. done.
Qed.

End linux_tree.

(** ** Properties of the Windows build *)

Section win32.
Import Win32.

(** The existence check of this build does stop at a pid that is not in
    the process table: nothing is resolved, opened or called. *)
Lemma win32_set_process_suspended_absent pid suspend w :
  procs w !! pid = None →
  set_process_suspended pid suspend w = (false, w).
Proof.
  intros H. unfold set_process_suspended, process_exists, OpenProcess.
  by rewrite H.
Qed.

(** [can_control_process] of this build refuses a process whose
    suspend/resume handle the caller is denied. *)
Lemma win32_can_control_process_spec pid w :
  can_control_process pid w = true ↔
  ∃ p, procs w !! pid = Some p ∧ suspend_access p = true.
Proof.
  unfold can_control_process, OpenProcess.
  destruct (procs w !! pid) as [p|].
  - split; [intros; by exists p|]. by intros (?&[= <-]&?).
  - split; [done|]. by intros (?&?&?).
Qed.

(** The batch functions of this build attempt every matched pid and
    count the calls that returned true. *)
Lemma win32_batch_loop_attempt_all suspend pids count w :
  batch_loop suspend pids count w =
    let r := attempt_all suspend pids w in
    (count + Linux.successes r.1, r.2).
Proof.
  revert count w. induction pids as [|pid rest IH]; intros count w.
  { cbn. f_equal. unfold Linux.successes. cbn. lia. }
  cbn [batch_loop attempt_all].
  destruct (set_process_suspended pid suspend w) as [ok w1].
  rewrite IH. cbv zeta. destruct (attempt_all suspend rest w1) as [oks w2].
  cbn [fst snd]. f_equal. unfold Linux.successes. destruct ok.
  - rewrite filter_cons_True by done. cbn [length]. lia.
  - rewrite filter_cons_False by done. done.
Qed.

(** (X22) On this build every matched pid is a unit: both batch functions
    attempt all of them in the order of the snapshot, whatever the earlier
    calls returned, and count the calls that returned true. *)
Lemma win32_batch_continue_on_error (suspend : bool) exe_name w :
  let r := attempt_all suspend (find_all_processes_by_name exe_name w) w in
  (if suspend then suspend_processes_by_name exe_name w
   else resume_processes_by_name exe_name w) = (Linux.successes r.1, r.2).
Proof.
  unfold suspend_processes_by_name, resume_processes_by_name.
  destruct suspend; by rewrite win32_batch_loop_attempt_all.
Qed.

Lemma resolutions_log e w :
  resolutions (log e w) =
    if decide (e = EvGetModuleHandle) then S (resolutions w)
    else resolutions w.
Proof.
  unfold resolutions, log. cbn [trace].
  rewrite filter_app, length_app. case_decide.
  - rewrite filter_cons_True, filter_nil by done. cbn [length]. lia.
  - rewrite filter_cons_False, filter_nil by done. cbn [length]. lia.
Qed.

Lemma resolutions_set_pfn s r w : resolutions (set_pfn s r w) = resolutions w.
Proof. done. Qed.

Lemma resolutions_set_initialized b w :
  resolutions (set_initialized b w) = resolutions w.
Proof. done. Qed.

Lemma resolutions_resolve w :
  resolutions (resolve_nt_functions w) = S (resolutions w).
Proof.
  unfold resolve_nt_functions. cbv zeta.
  change (ntdll (log EvGetModuleHandle w)) with (ntdll w).
  destruct (ntdll w) as [[s r]|].
  - rewrite resolutions_set_pfn, !resolutions_log.
    repeat case_decide; done.
  - rewrite resolutions_log. by case_decide.
Qed.

Lemma resolutions_privilege w :
  resolutions (enable_debug_privilege w).2 = resolutions w.
Proof.
  unfold enable_debug_privilege.
  destruct (token w) as [[b|]|]; cbn [snd]; try done.
  rewrite resolutions_log. by case_decide.
Qed.

Lemma init_nt_functions_first w :
  initialized w = false →
  initialized (init_nt_functions w).2 = true ∧
  resolutions (init_nt_functions w).2 = S (resolutions w).
Proof.
  intros Hi. unfold init_nt_functions. rewrite Hi. simpl.
  pose proof (resolutions_privilege (resolve_nt_functions w)) as Hp.
  destruct (enable_debug_privilege _) as [b w2]. simpl in *.
  split; [done|]. by rewrite <-resolutions_resolve.
Qed.

Lemma init_nt_functions_again w :
  initialized w = true → init_nt_functions w = (tt, w).
Proof. intros Hi. unfold init_nt_functions. by rewrite Hi. Qed.

(** One thread running alone through its steps is a call of the
    function. *)
Lemma thread_alone w :
  run [0; 0; 0; 0]%nat [AtTest] w = ([Returned], (init_nt_functions w).2).
Proof.
  unfold init_nt_functions. simpl.
  destruct (initialized w); simpl; [done|].
  by destruct (enable_debug_privilege _).
Qed.

(** (Claim C9, as the code has it) Calls that do not overlap resolve the
    entry points once.  Starting with the flag unset, after any number
    n >= 1 of calls made one after the other the world is the one the
    first call left: the lookups were performed once, the flag is set,
    and the capability (resolved or not) is the one the first call
    found. *)
Theorem init_nt_functions_once_in_sequence w n :
  initialized w = false → (1 ≤ n)%nat →
  after_calls n w = (init_nt_functions w).2 ∧
  initialized (after_calls n w) = true ∧
  resolutions (after_calls n w) = S (resolutions w) ∧
  capability (after_calls n w) = capability (after_calls 1 w).
Proof.
  intros Hi Hn.
  destruct (init_nt_functions_first w Hi) as [Hflag Hres].
  assert (after_calls n w = (init_nt_functions w).2) as Heq.
  { destruct n as [|n]; [lia|]. clear Hn.
    induction n as [|n IH]; [done|].
    change (after_calls (S (S n)) w)
      with (init_nt_functions (after_calls (S n) w)).2.
    rewrite IH, init_nt_functions_again; done. }
  rewrite Heq. done.
Qed.

Lemma init_nt_functions_once_in_sequence_witness :
  initialized Scenarios.windows_boot = false ∧
  resolutions Scenarios.windows_boot = 0%nat ∧
  resolutions (after_calls 3 Scenarios.windows_boot) = 1%nat ∧
  capability (after_calls 3 Scenarios.windows_boot) = (true, true).
Proof.
  assert (initialized Scenarios.windows_boot = false) as Hi by reflexivity.
  assert (resolutions Scenarios.windows_boot = 0%nat) as H0 by reflexivity.
  destruct (init_nt_functions_once_in_sequence Scenarios.windows_boot 3 Hi)
    as (_&_&Hres&Hcap); [lia|].
  split; [exact Hi|]. split; [exact H0|].
  split; [by rewrite Hres, H0|].
  rewrite Hcap. vm_compute; reflexivity.
Defined.

(** (Claim C9, as stated) Two threads that make the first call at the
    same time both find the flag unset and both perform the lookups. *)
Lemma init_nt_functions_race :
  let w := Scenarios.windows_boot in
  let r := run [0; 1; 0; 1; 0; 1; 0; 1]%nat [AtTest; AtTest] w in
  initialized w = false ∧ resolutions w = 0%nat ∧
  r.1 = [Returned; Returned] ∧
  resolutions r.2 = 2%nat ∧
  trace r.2 = [EvGetModuleHandle;
               EvGetProcAddress "NtSuspendProcess";
               EvGetProcAddress "NtResumeProcess";
               EvGetModuleHandle;
               EvGetProcAddress "NtSuspendProcess";
               EvGetProcAddress "NtResumeProcess";
               EvAdjustTokenPrivileges; EvAdjustTokenPrivileges].
Proof. vm_compute. repeat split. Qed.

(** The race does not depend on the machine. *)
Lemma init_nt_functions_race_any w :
  initialized w = false →
  let r := run [0; 1; 0; 1; 0; 1; 0; 1]%nat [AtTest; AtTest] w in
  r.1 = [Returned; Returned] ∧ resolutions r.2 = S (S (resolutions w)).
Proof.
  intros Hi.
  assert (run [0; 1; 0; 1; 0; 1; 0; 1]%nat [AtTest; AtTest] w =
          ([Returned; Returned],
           set_initialized true (set_initialized true
             (enable_debug_privilege
                (enable_debug_privilege
                   (resolve_nt_functions (resolve_nt_functions w))).2).2)))
    as ->.
  { destruct w as [ps sn nt tk ini s r tr]. simpl in Hi. subst ini.
    by destruct nt as [[]|], tk as [[]|]. }
  split; [done|].
  cbn [snd].
  by rewrite !resolutions_set_initialized, !resolutions_privilege,
    !resolutions_resolve.
Qed.

Lemma pop_back_inv {A} (v v' : list A) x :
  Cxx.pop_back v = Some (x, v') → v = v' ++ [x].
Proof.
  unfold Cxx.pop_back. destruct (reverse v) as [|y r] eqn:Hr; [done|].
  intros [= -> <-]. by rewrite <-reverse_cons, <-Hr, reverse_involutive.
Qed.

Lemma pop_back_is_Some {A} (v : list A) y :
  y ∈ v → is_Some (Cxx.pop_back v).
Proof.
  intros Hin. unfold Cxx.pop_back.
  destruct (reverse v) as [|x r] eqn:Hr; [|eauto].
  apply (f_equal reverse) in Hr. rewrite reverse_involutive in Hr.
  subst v. by apply elem_of_nil in Hin.
Qed.

(** The walk never ends on a snapshot that lists a process as its own
    parent, once that pid is on the stack: each time it is taken off it
    is put back. *)
Lemma tree_loop_self_parent w entries r :
  snapshot w = Some entries →
  r ∈ children r entries →
  ∀ fuel tree to_check, r ∈ to_check → tree_loop fuel w tree to_check = None.
Proof.
  intros Hs Hr fuel.
  induction fuel as [|fuel IH]; intros tree to_check Hin; cbn [tree_loop].
  - by destruct (pop_back_is_Some _ _ Hin) as [[x v] ->].
  - destruct (pop_back_is_Some _ _ Hin) as [[x v] Hpop]. rewrite Hpop, Hs.
    apply IH. apply pop_back_inv in Hpop as ->.
    apply elem_of_app in Hin as [Hin|Hin]; apply elem_of_app; [by left|].
    apply list_elem_of_singleton in Hin as ->. by right.
Qed.

(** (Claim C10) [get_process_tree(0)] on a Windows machine: the idle
    process has pid 0 and parent pid 0, so the loop finds 0 among the
    children of 0 again and again and no bound on the iterations is
    enough for a result. *)
Theorem get_process_tree_idle_process fuel :
  get_process_tree fuel 0 Scenarios.windows_boot = None.
Proof.
  unfold get_process_tree.
  apply (tree_loop_self_parent Scenarios.windows_boot _ 0 eq_refl).
  - change (0 ∈ [0; 4]). apply elem_of_cons. by left.
  - apply elem_of_cons. by left.
Qed.

(** The other processes of that machine have finite trees. *)
Example get_process_tree_system :
  get_process_tree 2 4 Scenarios.windows_boot = Some [4; 1200].
Proof. vm_compute. done. Qed.

End win32.


(** ** Further properties: names, numbers and paths *)

Section parsing.
Import Cxx Linux.

Lemma digit_pretty_N_char d :
  (d < 10)%N → digit (pretty_N_char d) = Some (Z.of_N d).
Proof.
  intros Hd.
  assert (d = 0 ∨ d = 1 ∨ d = 2 ∨ d = 3 ∨ d = 4 ∨ d = 5 ∨ d = 6 ∨ d = 7
          ∨ d = 8 ∨ d = 9)%N as H by lia.
  repeat destruct H as [->|H]; try subst d; reflexivity.
Qed.

(** A digit is no white space, no sign and no parenthesis. *)
Lemma digit_plain c d :
  digit c = Some d →
  isspace c = false ∧ c ≠ "-"%char ∧ c ≠ "+"%char ∧ c ≠ ")"%char.
Proof.
  destruct c as [[] [] [] [] [] [] [] []]; vm_compute; intros; done.
Qed.

(** Reading back the digits [pretty_N_go] puts in front of [s]. *)
Lemma read_digits_pretty_N_go x :
  ∃ m, ∀ acc s,
    read_digits acc (pretty_N_go x s) = read_digits (acc * m + Z.of_N x) s.
Proof.
  induction (N.lt_wf_0 x) as [x _ IH].
  destruct (decide (x = 0)%N) as [->|Hx].
  { exists 1. intros acc s. rewrite pretty_N_go_0. f_equal. lia. }
  destruct (IH (x `div` 10)%N) as [m Hm]; [apply N.div_lt; lia|].
  exists (10 * m). intros acc s.
  rewrite pretty_N_go_step, Hm by lia. cbn [read_digits].
  rewrite digit_pretty_N_char by (apply N.mod_lt; lia). f_equal.
  pose proof (N.div_mod x 10 ltac:(lia)). lia.
Qed.

Lemma pretty_N_go_app x s r :
  (pretty_N_go x s +:+ r)%string = pretty_N_go x (s +:+ r).
Proof.
  revert s. induction (N.lt_wf_0 x) as [x _ IH]; intros s.
  destruct (decide (x = 0)%N) as [->|Hx]; [by rewrite !pretty_N_go_0|].
  rewrite !(pretty_N_go_step x) by lia. rewrite IH by (apply N.div_lt; lia).
  done.
Qed.

(** The text of a positive number starts with a digit. *)
Lemma pretty_N_go_head x s :
  (0 < x)%N →
  ∃ c rest, pretty_N_go x s = String c rest ∧ is_Some (digit c).
Proof.
  revert s. induction (N.lt_wf_0 x) as [x _ IH]; intros s Hx.
  rewrite pretty_N_go_step by done.
  destruct (decide (x `div` 10 = 0)%N) as [->|Hq].
  - rewrite pretty_N_go_0. eexists _, _. split; [done|].
    rewrite digit_pretty_N_char by (apply N.mod_lt; lia). eauto.
  - apply IH; [apply N.div_lt; lia|by apply N.neq_0_lt_0].
Qed.

(** The decimal text of a natural number followed by [r]. *)
Lemma pretty_N_shape (n : N) r :
  ∃ c rest, (pretty n +:+ r)%string = String c rest ∧ is_Some (digit c) ∧
            ∀ acc, ∃ m, read_digits acc (String c rest)
                        = read_digits (acc * m + Z.of_N n) r.
Proof.
  unfold pretty, pretty_N. case_decide as Hn.
  - subst n. exists "0"%char, r. split_and!; [done|by eexists|].
    intros acc. exists 10. cbn [read_digits].
    change (digit "0") with (Some 0). f_equal. lia.
  - rewrite pretty_N_go_app. cbn [String.app].
    destruct (pretty_N_go_head n r) as (c&rest&Heq&Hc); [lia|].
    exists c, rest. split_and!; [done..|]. intros acc.
    destruct (read_digits_pretty_N_go n) as [m Hm]. exists m.
    by rewrite <-Heq, Hm.
Qed.

Lemma read_digits_stop acc r :
  has_digit r = false → read_digits acc r = (acc, r).
Proof.
  destruct r as [|c r]; [done|]. cbn.
  destruct (digit c); [|done]. intros H.
  by rewrite bool_decide_true in H by eauto.
Qed.

(** What the signed readers make of the decimal text of [n] followed by
    [r], when [r] does not go on with a digit: the sign, the magnitude
    and [r]. *)
Lemma signed_to_string n r :
  has_digit r = false →
  ∃ s1, read_sign (skip_ws (to_string n +:+ r)) = (bool_decide (n < 0), s1) ∧
        has_digit s1 = true ∧ read_digits 0 s1 = (Z.abs n, r).
Proof.
  intros Hr. unfold to_string, pretty, pretty_Z.
  assert (∀ (p : N), ∃ s1,
    read_sign (skip_ws (pretty p +:+ r)) = (false, s1) ∧
    s1 = (pretty p +:+ r)%string ∧
    has_digit s1 = true ∧ read_digits 0 s1 = (Z.of_N p, r)) as Hnat.
  { intros p. destruct (pretty_N_shape p r) as (c&rest&Heq&[d Hc]&Hrd).
    exists (String c rest). rewrite Heq.
    destruct (digit_plain c d Hc) as (Hsp&Hm&Hp&_). cbn [skip_ws].
    rewrite Hsp. split_and!; [|done| |].
    - unfold read_sign. destruct c as [[] [] [] [] [] [] [] []]; done.
    - cbn. rewrite Hc. by apply bool_decide_true.
    - destruct (Hrd 0) as [m ->]. rewrite read_digits_stop by done.
      f_equal; lia. }
  destruct n as [|p|p].
  - destruct (Hnat 0%N) as (s1&H1&_&H2&H3). exists s1.
    by rewrite bool_decide_false by lia.
  - destruct (Hnat (Npos p)) as (s1&H1&_&H2&H3). exists s1.
    rewrite bool_decide_false by lia. done.
  - destruct (Hnat (Npos p)) as (s1&H1&Hs1&H2&H3). exists s1.
    rewrite bool_decide_true by lia. cbn [String.app skip_ws].
    change (isspace "-") with false. cbn [read_sign].
    split_and!; [by rewrite Hs1|done|done].
Qed.

Lemma string_app_empty_r (s : string) : (s +:+ "")%string = s.
Proof.
  induction s as [|c s IH]; [done|].
  change (String c (s +:+ "") = String c s). by f_equal.
Qed.

(** [strtol] reads back what [std::to_string] writes. *)
Lemma strtol_to_string n :
  LONG_MIN ≤ n ≤ LONG_MAX → strtol (to_string n) = (n, EmptyString).
Proof.
  intros Hn. destruct (signed_to_string n "" eq_refl) as (s1&Hs&Hd&Hr).
  rewrite string_app_empty_r in Hs.
  unfold strtol. rewrite Hs, Hd, Hr. f_equal. unfold clamp.
  case_bool_decide; lia.
Qed.

(** (X1) A /proc entry named by [std::to_string] of a pid, of type
    directory or unknown, is read back by the directory loops as that
    pid. *)
Theorem entry_pid_to_string t n :
  t = DT_DIR ∨ t = DT_UNKNOWN → INT_MIN ≤ n ≤ INT_MAX →
  entry_pid (Dirent t (to_string n)) = Some n.
Proof.
  intros Ht Hn. unfold INT_MIN, INT_MAX in Hn.
  assert (strtol (to_string n) = (n, EmptyString)) as Hs.
  { apply strtol_to_string. unfold LONG_MIN, LONG_MAX. lia. }
  assert (to_int n = n) as Hi.
  { unfold to_int. rewrite Z.mod_small; lia. }
  unfold entry_pid. cbn [d_type d_name]. rewrite Hs. cbn [empty].
  destruct Ht as [-> | ->]; by rewrite Hi.
Qed.

Lemma entry_pid_to_string_witness :
  entry_pid (Dirent DT_DIR (to_string 4194304)) = Some 4194304.
Proof.
  apply entry_pid_to_string; [by left|].
  unfold INT_MIN, INT_MAX. lia.
Defined.

Lemma string_length_app (s1 s2 : string) :
  String.length (s1 +:+ s2) = (String.length s1 + String.length s2)%nat.
Proof.
  induction s1 as [|c s1 IH]; [done|].
  change (S (String.length (s1 +:+ s2)) = S (String.length s1 + String.length s2)).
  by rewrite IH.
Qed.

Lemma substring_all (s : string) : String.substring 0 (String.length s) s = s.
Proof. induction s as [|c s IH]; [done|]. cbn. by rewrite IH. Qed.

Lemma substring_skip (pre s : string) k m :
  String.substring (String.length pre + k) m (pre +:+ s) = String.substring k m s.
Proof.
  induction pre as [|c pre IH]; [done|].
  change (String.substring (S (String.length pre + k)) m
            (String c (pre +:+ s)) = String.substring k m s).
  cbn [String.substring]. apply IH.
Qed.

Lemma substr_after (pre : string) c suf :
  substr (String.length pre + 1) (pre +:+ String c suf) = suf.
Proof.
  unfold substr. rewrite substring_skip, string_length_app.
  cbn [String.length String.substring].
  replace (String.length pre + S (String.length suf)
           - (String.length pre + 1))%nat with (String.length suf) by lia.
  apply substring_all.
Qed.

Lemma rfind_last (pre : string) c suf :
  rfind c suf = None → rfind c (pre +:+ String c suf) = Some (String.length pre).
Proof.
  intros Hs. induction pre as [|a pre IH].
  - change (rfind c (String c suf) = Some 0%nat). cbn [rfind].
    by rewrite Hs, Ascii.eqb_refl.
  - change (rfind c (String a (pre +:+ String c suf))
            = Some (S (String.length pre))).
    cbn [rfind]. by rewrite IH.
Qed.

Lemma rfind_cons_None c a s :
  a ≠ c → rfind c s = None → rfind c (String a s) = None.
Proof.
  intros Ha Hs. cbn [rfind]. rewrite Hs.
  by destruct (Ascii.eqb_spec a c).
Qed.

Lemma rfind_pretty_N_go x s :
  rfind ")" s = None → rfind ")" (pretty_N_go x s) = None.
Proof.
  revert s. induction (N.lt_wf_0 x) as [x _ IH]; intros s Hs.
  destruct (decide (x = 0)%N) as [->|Hx]; [by rewrite pretty_N_go_0|].
  rewrite pretty_N_go_step by lia. apply IH; [apply N.div_lt; lia|].
  apply rfind_cons_None; [|done].
  destruct (digit_plain _ _ (digit_pretty_N_char (x `mod` 10)
              ltac:(apply N.mod_lt; lia))) as (_&_&_&?). done.
Qed.

(** The text of a number brings in no closing parenthesis. *)
Lemma rfind_to_string n r :
  rfind ")" r = None → rfind ")" (to_string n +:+ r) = None.
Proof.
  intros Hr.
  assert (∀ p : N, rfind ")" (pretty p +:+ r) = None) as Hnat.
  { intros p. unfold pretty, pretty_N. case_decide.
    - change (rfind ")" (String "0" r) = None). by apply rfind_cons_None.
    - rewrite pretty_N_go_app. by apply rfind_pretty_N_go. }
  unfold to_string, pretty, pretty_Z. destruct n as [|p|p].
  - apply (Hnat 0%N).
  - apply (Hnat (Npos p)).
  - change (rfind ")" (String "-" (pretty (Npos p) +:+ r)) = None).
    apply rfind_cons_None; [done|]. apply (Hnat (Npos p)).
Qed.

Lemma extract_int_to_string n r :
  INT_MIN ≤ n ≤ INT_MAX → has_digit r = false →
  extract_int (String " " (to_string n +:+ r)) = Some (n, r).
Proof.
  intros Hn Hr. destruct (signed_to_string n r Hr) as (s1&Hs&Hd&Hrd).
  unfold extract_int.
  change (skip_ws (String " " (to_string n +:+ r)))
    with (skip_ws (to_string n +:+ r)).
  rewrite Hs, Hd, Hrd. unfold INT_MIN, INT_MAX in *.
  case_bool_decide.
  - replace (- Z.abs n) with n by lia.
    by rewrite !(proj2 (Z.leb_le _ _)) by lia.
  - replace (Z.abs n) with n by lia.
    by rewrite !(proj2 (Z.leb_le _ _)) by lia.
Qed.

(** (X2) [get_parent_pid] finds the parent in a stat line of the form
    "... (comm) S ppid ...", whatever the command name holds: closing
    parentheses, blanks and digits in it do no harm, because the line is
    cut at its last ")". *)
Theorem get_parent_pid_stat_line w pid pre state ppid tail more :
  files w !! ("/proc/" +:+ to_string pid +:+ "/stat")%string =
    Some ((pre +:+ String ")" (String " " (String state
             (String " " (to_string ppid +:+ tail)))))%string :: more) →
  isspace state = false → state ≠ ")"%char →
  has_digit tail = false → rfind ")" tail = None →
  INT_MIN ≤ ppid ≤ INT_MAX →
  get_parent_pid pid w = ppid.
Proof.
  intros Hf Hst Hparen Htail Hnone Hp.
  unfold get_parent_pid, first_line. rewrite Hf. cbn [hd].
  assert (rfind ")" (String " " (String state
            (String " " (to_string ppid +:+ tail)))) = None) as Hsuf.
  { repeat (apply rfind_cons_None; [done|]). by apply rfind_to_string. }
  rewrite (rfind_last _ _ _ Hsuf), substr_after.
  unfold extract_char. cbn [skip_ws]. change (isspace " ") with true.
  cbn [skip_ws]. rewrite Hst.
  by rewrite (extract_int_to_string ppid tail Hp Htail).
Qed.

Lemma get_parent_pid_stat_line_witness :
  let w := World ∅ 1 1 None
             {[ "/proc/7/stat"%string := ["7 (a) (b 9) R 3 7 7 0"%string] ]}
             ∅ ∅ [] in
  get_parent_pid 7 w = 3.
Proof.
  intros w.
  apply (get_parent_pid_stat_line w 7 "7 (a) (b 9" "R" 3 " 7 7 0" []).
  - vm_compute; reflexivity.
  - reflexivity.
  - discriminate.
  - reflexivity.
  - reflexivity.
  - unfold INT_MIN, INT_MAX. lia.
Defined.

Lemma prefix_app (p s : string) :
  String.prefix p s = true → ∃ r, s = (p +:+ r)%string.
Proof.
  revert s. induction p as [|a p IH]; intros s; [by exists s|].
  destruct s as [|b s]; [done|]. cbn [String.prefix].
  destruct (ascii_dec a b) as [->|]; [|done]. intros H.
  destruct (IH s H) as [r ->]. by exists r.
Qed.

(** The path made of a line "0::/...". *)
Lemma cgroup_line_path line :
  starts_with "0::/" line = true →
  ∃ r, line = ("0::/" +:+ r)%string ∧
       ("/sys/fs/cgroup" +:+ substr 3 line)%string
         = ("/sys/fs/cgroup/" +:+ r)%string.
Proof.
  intros Hpre. apply prefix_app in Hpre as [r ->]. exists r. split; [done|].
  assert (substr 3 ("0::/" +:+ r) = String "/" r) as ->
    by exact (substr_after "0:" ":" (String "/" r)).
  reflexivity.
Qed.

(** (X3) The text [get_cgroup_v2_path] returns is empty or begins with
    "/sys/fs/cgroup/": it is that prefix followed by what a line
    "0::/..." of the process's cgroup file has after "0::/", taken as it
    stands.  Nothing is said about where such a path leads. *)
Theorem get_cgroup_v2_path_shape pid w :
  get_cgroup_v2_path pid w = EmptyString ∨
  ∃ ls r, files w !! ("/proc/" +:+ to_string pid +:+ "/cgroup")%string = Some ls ∧
          ("0::/" +:+ r)%string ∈ ls ∧
          get_cgroup_v2_path pid w = ("/sys/fs/cgroup/" +:+ r)%string.
Proof.
  unfold get_cgroup_v2_path.
  destruct (files w !! _) as [ls|]; [|by left].
  destruct (List.find (starts_with "0::/") ls) as [line|] eqn:Hfind; [|by left].
  right. apply List.find_some in Hfind as [Hin Hpre].
  destruct (cgroup_line_path line Hpre) as (r&->&->).
  exists ls, r. split_and!; [done|by apply list_elem_of_In|done].
Qed.

End parsing.

(** ** Further properties: suspending and resuming one process *)

Section suspension_more.
Import Cxx Linux.

(** A [kill] that fails has changed nothing. *)
Lemma kill_Err pid sig w e :
  (kill pid sig w).1 = Err e → (kill pid sig w).2 = log (EvKill pid sig) w.
Proof.
  unfold kill. destruct pid as [|q|q]; cbn [fst snd];
    repeat case_bool_decide; repeat case_match; by cbn.
Qed.

Lemma process_exists_Zpos q w :
  (process_exists (Zpos q) w).1 = true ↔ is_Some (procs w !! q).
Proof.
  destruct (procs w !! q) as [p|] eqn:Hq.
  - rewrite (process_exists_present _ _ _ Hq). split; eauto.
  - rewrite (process_exists_absent _ _ Hq). split; [done|by intros [? ?]].
Qed.

(** (X5) For a positive pid, [process_exists] and [can_control_process]
    both answer true exactly when the pid is in the process table; the
    caller's rights over the process play no part in either. *)
Theorem probes_iff_present q w :
  ((process_exists (Zpos q) w).1 = true ↔ is_Some (procs w !! q)) ∧
  ((can_control_process (Zpos q) w).1 = true ↔ is_Some (procs w !! q)).
Proof.
  rewrite can_control_process_is_process_exists.
  split; apply process_exists_Zpos.
Qed.

Lemma set_process_suspended_absent_witness :
  procs Scenarios.desktop !! 777%positive = None ∧
  set_process_suspended 777 true Scenarios.desktop
    = (false, log (EvKill 777 SIG0) Scenarios.desktop).
Proof.
  assert (procs Scenarios.desktop !! 777%positive = None) as H
    by (vm_compute; reflexivity).
  split; [exact H|]. exact (set_process_suspended_absent 777 true _ H).
Defined.

(** (X7) A call that returns false has changed neither the process table
    nor any control node: a failed suspend or resume leaves every process
    as it was. *)
Theorem set_process_suspended_failure pid suspend w :
  (set_process_suspended pid suspend w).1 = false →
  procs (set_process_suspended pid suspend w).2 = procs w ∧
  nodes (set_process_suspended pid suspend w).2 = nodes w.
Proof.
  rewrite set_process_suspended_cases. cbv zeta.
  destruct (negb _); [done|].
  destruct (resolve_domain pid w) as [d|].
  - unfold freeze_call. change (nodes (log _ w)) with (nodes w).
    destruct (nodes w !! freeze_file d) as [n|]; [|done].
    by destruct (open_ok n).
  - destruct (kill pid _ _) as [[|e] w2] eqn:Hk; [done|]. intros _.
    pose proof (kill_Err pid (stop_or_cont suspend)
                  (log (EvKill pid SIG0) w) e) as He.
    rewrite Hk in He. specialize (He eq_refl). cbn [snd] in He.
    by subst w2.
Qed.

Lemma set_process_suspended_failure_witness :
  let r := set_process_suspended 402 true Scenarios.desktop in
  r.1 = false ∧ procs r.2 = procs Scenarios.desktop ∧
  nodes r.2 = nodes Scenarios.desktop.
Proof.
  intros r. assert (r.1 = false) as H by (vm_compute; reflexivity).
  split; [exact H|]. exact (set_process_suspended_failure 402 true _ H).
Defined.












End suspension_more.

(** ** Further properties: the batch functions *)

Section batch_more.
Import Cxx Linux.

Lemma batch_units_sublist pids handled w :
  batch_units pids handled w `sublist_of` pids.
Proof.
  revert handled. induction pids as [|pid rest IH]; intros handled;
    cbn [batch_units]; [done|].
  destruct (_ && _); by constructor.
Qed.

Lemma successes_bounds oks : 0 ≤ successes oks ≤ Z.of_nat (length oks).
Proof. unfold successes. pose proof (length_filter (λ ok, ok = true) oks). lia. Qed.

(** (X13) The count of a batch lies between 0 and the number of matched
    pids, and a name nothing matches (or a /proc that cannot be read)
    gives 0 and leaves the world, trace included, untouched. *)
Theorem batch_count_bounds (suspend : bool) exe_name w :
  let r := if suspend then suspend_processes_by_name exe_name w
           else resume_processes_by_name exe_name w in
  0 ≤ r.1 ≤ Z.of_nat (length (find_all_processes_by_name exe_name w)) ∧
  (find_all_processes_by_name exe_name w = [] → r = (0, w)) ∧
  (proc_dir w = None → r = (0, w)).
Proof.
  cbv zeta.
  destruct (batch_continue_on_error_units suspend exe_name w) as [-> _].
  cbn [fst]. split; [|split].
  - pose proof (successes_bounds
      (attempt_all suspend
         (batch_units (find_all_processes_by_name exe_name w) ∅ w) w).1) as Hb.
    rewrite attempt_all_length in Hb.
    pose proof (sublist_length _ _
      (batch_units_sublist (find_all_processes_by_name exe_name w) ∅ w)).
    lia.
  - by intros ->.
  - intros Hd. unfold find_all_processes_by_name. by rewrite Hd.
Qed.


Lemma attempt_all_same_fs suspend units w :
  same_fs w (attempt_all suspend units w).2.
Proof.
  revert w. induction units as [|pid rest IH]; intros w;
    cbn [attempt_all]; [by repeat split|].
  unfold bind, ret.
  pose proof (set_process_suspended_same_fs pid suspend w) as H1.
  destruct (set_process_suspended pid suspend w) as [ok w1].
  specialize (IH w1). destruct (attempt_all suspend rest w1) as [oks w2].
  cbn [snd] in *. destruct H1 as (?&?&?), IH as (?&?&?).
  repeat split; congruence.
Qed.



(** (X12) Which pids a batch acts on.  The pids probed by
    [suspend_processes_by_name] or [resume_processes_by_name] are, in
    the order of /proc, a selection of the matched pids that keeps every
    pid without a cgroup v2 path and, for each cgroup v2 path among the
    matched pids, exactly one pid with that path. *)
Theorem batch_probed_pids (suspend : bool) exe_name w :
  let r := if suspend then suspend_processes_by_name exe_name w
           else resume_processes_by_name exe_name w in
  let pids := find_all_processes_by_name exe_name w in
  ∃ evs, trace r.2 = trace w ++ evs ∧
         probed evs `sublist_of` pids ∧
         pathless w (probed evs) = pathless w pids ∧
         NoDup (cgroup_paths w (probed evs)) ∧
         ∀ path, path ∈ cgroup_paths w (probed evs) ↔
                 path ∈ cgroup_paths w pids.
Proof.
  cbv zeta.
  destruct (batch_continue_on_error_units suspend exe_name w)
    as (->&evs&Ht&Hp).
  exists evs. rewrite Hp. split; [done|].
  destruct (batch_units_spec (find_all_processes_by_name exe_name w) ∅ w)
    as (Hsub&Hpl&Hnd&Hin).
  split_and!; [done..|]. intros path. rewrite Hin.
  split; [by intros [? _]|]. intros ?. split; [done|]. apply not_elem_of_empty.
Qed.

End batch_more.

(** ** Further properties: the tree walk *)

Section tree_more.
Import Cxx Linux.


(** A walk that returns has only met pids below which every chain of
    children ends. *)
Lemma tree_loop_returns_acc fuel w entries tree to_check result :
  proc_dir w = Some entries →
  tree_loop fuel w tree to_check = Some result →
  ∀ y, y ∈ to_check → Acc (child_of w entries) y.
Proof.
  intros Hdir. revert tree to_check.
  induction fuel as [|fuel IH]; intros tree to_check Hrun y Hin;
    cbn [tree_loop] in Hrun;
    destruct (pop_back_is_Some to_check y Hin) as [[c st] Hpop];
    rewrite Hpop in Hrun; [done|].
  rewrite Hdir in Hrun. apply pop_back_inv in Hpop as ->.
  pose proof (IH _ _ Hrun) as Hacc.
  apply elem_of_app in Hin as [Hin|Hin].
  - apply Hacc, elem_of_app. by left.
  - apply list_elem_of_singleton in Hin as ->. constructor.
    intros x Hx. apply Hacc, elem_of_app. by right.
Qed.

(** (X15) [get_process_tree] returns exactly on the process tables in
    which every chain of children below the root ends: a cycle of parent
    links that can be reached from the root keeps the loop running for
    ever, and nothing else does. *)
Theorem get_process_tree_returns_iff w entries root :
  proc_dir w = Some entries →
  (∃ fuel tree, get_process_tree fuel root w = Some tree) ↔
  Acc (child_of w entries) root.
Proof.
  intros Hdir. split.
  - intros (fuel&tree&Hrun).
    eapply (tree_loop_returns_acc _ _ _ _ _ _ Hdir Hrun).
    by apply list_elem_of_singleton.
  - intros Hacc.
    destruct (get_process_tree_correct w entries root Hdir Hacc)
      as (k&rest&Hk&_).
    exists k, (root :: rest). by apply Hk.
Qed.

Lemma get_process_tree_returns_iff_witness :
  ∃ entries, proc_dir Scenarios.desktop = Some entries ∧
             Acc (child_of Scenarios.desktop entries) 1.
Proof.
  eexists. split; [reflexivity|].
  apply (get_process_tree_returns_iff Scenarios.desktop _ 1 eq_refl).
  exists 14%nat. eexists. vm_compute. reflexivity.
Defined.




Lemma get_process_tree_childless_witness :
  get_process_tree 1 999 Scenarios.desktop = Some [999].
Proof.
  apply get_process_tree_childless; [vm_compute; reflexivity|lia].
Defined.

End tree_more.

(** ** Further properties: the pid limit *)

Section pid_limit.
Import Cxx Linux.

(** (X4) [get_max_pid] returns the number /proc/sys/kernel/pid_max
    starts with.  The default 32768 is returned when the file cannot be
    opened, and also when it is empty; a file that opens but does not
    start with a number gives 0, not the default. *)
Theorem get_max_pid_spec w :
  (files w !! "/proc/sys/kernel/pid_max"%string = None →
   get_max_pid w = 32768) ∧
  (files w !! "/proc/sys/kernel/pid_max"%string = Some [] →
   get_max_pid w = 32768) ∧
  (∀ n more, INT_MIN ≤ n ≤ INT_MAX →
     files w !! "/proc/sys/kernel/pid_max"%string = Some (to_string n :: more) →
     get_max_pid w = n) ∧
  (∀ c rest more,
     files w !! "/proc/sys/kernel/pid_max"%string = Some (String c rest :: more) →
     isspace c = false → digit c = None → c ≠ "-"%char → c ≠ "+"%char →
     get_max_pid w = 0).
Proof.
  unfold get_max_pid. cbv zeta. split_and!.
  - by intros ->.
  - by intros ->.
  - intros n more Hn ->.
    assert (∃ r, String.concat newline (to_string n :: more)
                 = (to_string n +:+ r)%string ∧ has_digit r = false)
      as (r&->&Hr).
    { destruct more as [|l more].
      - exists EmptyString. by rewrite string_app_empty_r.
      - by exists (newline +:+ String.concat newline (l :: more))%string. }
    destruct (signed_to_string n r Hr) as (s1&Hs&Hd&Hrd).
    unfold extract_int_store.
    destruct (skip_ws (to_string n +:+ r)) as [|a s0] eqn:Hsk.
    { cbn in Hs. by simplify_eq. }
    rewrite Hs, Hd, Hrd. unfold clamp, INT_MIN, INT_MAX in *.
    case_bool_decide; lia.
  - intros c rest more -> Hsp Hc Hm Hp.
    assert (∃ r, String.concat newline (String c rest :: more) = String c r)
      as [r ->].
    { destruct more as [|l more]; [by eexists|].
      by exists (rest +:+ newline +:+ String.concat newline (l :: more))%string. }
    unfold extract_int_store. cbn [skip_ws]. rewrite Hsp.
    assert (read_sign (String c r) = (false, String c r)) as ->.
    { unfold read_sign. destruct c as [[] [] [] [] [] [] [] []]; done. }
    cbn [has_digit]. rewrite Hc. by rewrite bool_decide_false by (by intros [? ?]).
Qed.

Lemma get_max_pid_spec_witness :
  let w := World ∅ 1 1 None
             {[ "/proc/sys/kernel/pid_max"%string := ["4194304"%string] ]}
             ∅ ∅ [] in
  get_max_pid w = 4194304 ∧
  get_max_pid Scenarios.desktop = 32768.
Proof.
  intros w. split.
  - destruct (get_max_pid_spec w) as (_&_&Hn&_).
    apply (Hn 4194304 []); [unfold INT_MIN, INT_MAX; lia|].
    vm_compute; reflexivity.
  - destruct (get_max_pid_spec Scenarios.desktop) as (Hnone&_).
    apply Hnone. vm_compute; reflexivity.
Defined.

End pid_limit.

(** ** Further properties: the Windows build *)

Section win32_more.
Import Win32.

(** (X18) [find_process_by_name] returns the first pid
    [find_all_processes_by_name] lists, and the value of
    [static_cast<pid_t>(-1)] when that list is empty. *)
Theorem win32_find_process_by_name_first exe_name w :
  find_process_by_name exe_name w
    = default NOT_FOUND (head (find_all_processes_by_name exe_name w)).
Proof.
  unfold find_process_by_name, find_all_processes_by_name.
  destruct (snapshot w) as [entries|]; [|done].
  induction entries as [|pe32 rest IH]; [done|]. cbn [first_match].
  case_bool_decide as Hname.
  - by rewrite filter_cons_True by done.
  - by rewrite filter_cons_False by done.
Qed.

(** (X19) On a snapshot that lists every pid once, the tree walk and
    [get_parent_pid] agree: the walk finds [x] below [c] exactly when [x]
    is listed and [get_parent_pid x] is [c]. *)
Theorem win32_children_get_parent_pid w entries x c :
  snapshot w = Some entries →
  NoDup (th32ProcessID <$> entries) →
  x ∈ children c entries ↔
  x ∈ (th32ProcessID <$> entries) ∧ get_parent_pid x w = c.
Proof.
  intros Hs Hnd. unfold get_parent_pid. rewrite Hs. clear Hs.
  unfold children. induction entries as [|pe32 rest IH].
  { cbn. rewrite elem_of_nil. tauto. }
  rewrite fmap_cons in Hnd. apply NoDup_cons in Hnd as [Hnotin Hnd].
  specialize (IH Hnd). cbn [parent_in]. rewrite fmap_cons, elem_of_cons.
  case_bool_decide as Hpid.
  - subst x. destruct (decide (th32ParentProcessID pe32 = c)) as [Hc|Hc].
    + rewrite filter_cons_True, fmap_cons, elem_of_cons by done. tauto.
    + rewrite filter_cons_False by done. rewrite IH. tauto.
  - assert (x ≠ th32ProcessID pe32) as Hne by congruence.
    destruct (decide (th32ParentProcessID pe32 = c)) as [Hc|Hc].
    + rewrite filter_cons_True, fmap_cons, elem_of_cons by done.
      rewrite IH. tauto.
    + rewrite filter_cons_False by done. rewrite IH. tauto.
Qed.

Lemma win32_children_get_parent_pid_witness :
  1200 ∈ children 4 (default [] (snapshot Scenarios.windows_boot)) ∧
  get_parent_pid 1200 Scenarios.windows_boot = 4.
Proof.
  assert (NoDup (th32ProcessID <$>
            default [] (snapshot Scenarios.windows_boot))) as Hnd.
  { cbn. repeat constructor; rewrite ?elem_of_cons, ?elem_of_nil;
      intros H; repeat destruct H as [H|H]; done. }
  assert (1200 ∈ children 4 (default [] (snapshot Scenarios.windows_boot)))
    as Hin by (vm_compute; apply elem_of_cons; by left).
  split; [exact Hin|].
  exact (proj2 (proj1 (win32_children_get_parent_pid
           Scenarios.windows_boot _ 1200 4 eq_refl Hnd) Hin)).
Defined.

(** [init_nt_functions] as the composition of its three steps. *)
Lemma init_nt_functions_unfold w :
  initialized w = false →
  (init_nt_functions w).2 =
    set_initialized true
      (enable_debug_privilege (resolve_nt_functions w)).2.
Proof.
  intros Hi. unfold init_nt_functions. rewrite Hi. cbn [negb].
  by destruct (enable_debug_privilege _).
Qed.

Lemma resolve_nt_functions_frame w :
  procs (resolve_nt_functions w) = procs w ∧
  initialized (resolve_nt_functions w) = initialized w ∧
  ntdll (resolve_nt_functions w) = ntdll w ∧
  capability (resolve_nt_functions w)
    = match ntdll w with Some c => c | None => capability w end ∧
  filter (λ e, is_nt_call e = true) (trace (resolve_nt_functions w))
    = filter (λ e, is_nt_call e = true) (trace w).
Proof.
  unfold resolve_nt_functions. cbv zeta.
  change (ntdll (log EvGetModuleHandle w)) with (ntdll w).
  destruct (ntdll w) as [[s r]|] eqn:Hn; cbn;
    rewrite ?filter_app, ?app_nil_r, ?Hn; done.
Qed.

Lemma enable_debug_privilege_frame w :
  procs (enable_debug_privilege w).2 = procs w ∧
  initialized (enable_debug_privilege w).2 = initialized w ∧
  ntdll (enable_debug_privilege w).2 = ntdll w ∧
  capability (enable_debug_privilege w).2 = capability w ∧
  filter (λ e, is_nt_call e = true) (trace (enable_debug_privilege w).2)
    = filter (λ e, is_nt_call e = true) (trace w).
Proof.
  unfold enable_debug_privilege.
  destruct (token w) as [[b|]|]; cbn; rewrite ?filter_app, ?app_nil_r; done.
Qed.

Lemma init_nt_functions_frame w :
  procs (init_nt_functions w).2 = procs w ∧
  ntdll (init_nt_functions w).2 = ntdll w ∧
  initialized (init_nt_functions w).2 = true ∧
  capability (init_nt_functions w).2
    = (if initialized w then capability w
       else match ntdll w with Some c => c | None => capability w end) ∧
  filter (λ e, is_nt_call e = true) (trace (init_nt_functions w).2)
    = filter (λ e, is_nt_call e = true) (trace w).
Proof.
  destruct (initialized w) eqn:Hi.
  { by rewrite init_nt_functions_again. }
  rewrite init_nt_functions_unfold by done.
  destruct (resolve_nt_functions_frame w) as (Hp&_&Hn&Hc&Ht).
  destruct (enable_debug_privilege_frame (resolve_nt_functions w))
    as (Hp'&_&Hn'&Hc'&Ht').
  split_and!.
  - cbn [procs set_initialized]. congruence.
  - cbn [ntdll set_initialized]. congruence.
  - done.
  - change (capability (set_initialized true ?x)) with (capability x).
    congruence.
  - cbn [trace set_initialized]. congruence.
Qed.

(** (X20) An unavailable backend stays unavailable.  When the entry
    points cannot be resolved, every call of [set_process_suspended]
    returns false, calls neither Nt function, leaves the process table as
    it was, and leaves the backend unavailable for the next call: the
    lookup is not retried with a different outcome. *)
Theorem win32_backend_unavailable pid suspend w :
  unavailable w →
  let r := set_process_suspended pid suspend w in
  r.1 = false ∧ procs r.2 = procs w ∧
  filter (λ e, is_nt_call e = true) (trace r.2)
    = filter (λ e, is_nt_call e = true) (trace w) ∧
  unavailable r.2.
Proof.
  intros [Hcap Hnt]. cbv zeta. unfold set_process_suspended.
  destruct (negb (process_exists pid w)); [by repeat split|].
  destruct (init_nt_functions_frame w) as (Hp&Hn&Hi&Hc&Hev).
  assert (unavailable (init_nt_functions w).2) as Hun.
  { split; [|by rewrite Hi]. unfold capability in Hc.
    destruct (initialized w) eqn:Hi0.
    - injection Hc as -> ->. done.
    - destruct (ntdll w) as [[s r]|] eqn:Hn0.
      + injection Hc as -> ->. by apply Hnt.
      + injection Hc as -> ->. done. }
  destruct (init_nt_functions w) as [[] w1]. cbn [snd] in *.
  destruct Hun as [Hcap1 Hnt1].
  assert (negb (g_pfnNtSuspendProcess w1) || negb (g_pfnNtResumeProcess w1)
          = true) as ->.
  { by destruct (g_pfnNtSuspendProcess w1), (g_pfnNtResumeProcess w1). }
  by repeat split.
Qed.

Lemma win32_backend_unavailable_witness :
  let w := World (procs Scenarios.windows_boot)
             (snapshot Scenarios.windows_boot) (Some (true, false))
             (Some (Some true)) false false false [] in
  let r := set_process_suspended 1200 true w in
  r.1 = false ∧ procs r.2 = procs w ∧ unavailable r.2.
Proof.
  intros w r.
  destruct (win32_backend_unavailable 1200 true w) as (H1&H2&_&H4).
  - split; [reflexivity|]. intros _ s r' [= <- <-]. reflexivity.
  - split; [exact H1|]. split; [exact H2|exact H4].
Defined.

(** (X21) [set_process_suspended] returns true only when every check on
    the way held: the process is in the table and grants both the query
    and the suspend/resume access, both entry points are resolved, and the
    Nt call answered with status 0.  A call that returns false leaves the
    process table as it was. *)
Theorem win32_set_process_suspended_outcome pid suspend w :
  let r := set_process_suspended pid suspend w in
  (r.1 = true →
     ∃ p, procs w !! pid = Some p ∧ query_access p = true ∧
          suspend_access p = true ∧ terminating p = false ∧
          capability r.2 = (true, true)) ∧
  (r.1 = false → procs r.2 = procs w).
Proof.
  cbv zeta. unfold set_process_suspended, process_exists.
  destruct (OpenProcess PROCESS_QUERY_LIMITED_INFORMATION pid w) eqn:Hq;
    cbn [negb]; [|by split].
  destruct (init_nt_functions_frame w) as (Hp&_).
  destruct (init_nt_functions w) as [[] w1]. cbn [snd] in Hp.
  destruct (g_pfnNtSuspendProcess w1) eqn:Hs1; cbn [negb orb]; [|by split].
  destruct (g_pfnNtResumeProcess w1) eqn:Hr1; cbn [negb orb]; [|by split].
  destruct (OpenProcess PROCESS_SUSPEND_RESUME pid w1) eqn:Hs;
    cbn [negb]; [|by split].
  unfold OpenProcess in Hq, Hs. rewrite Hp in Hs. unfold nt_call.
  rewrite Hp. destruct (procs w !! pid) as [p|]; [|done].
  destruct (terminating p) eqn:Ht; cbn [fst snd].
  - split; [done|]. by rewrite <-Hp.
  - split; [|done]. intros _. exists p. unfold capability. cbn.
    by rewrite Hs1, Hr1.
Qed.

Lemma win32_set_process_suspended_outcome_witness :
  let r := set_process_suspended 1200 true Scenarios.windows_boot in
  r.1 = true ∧ capability r.2 = (true, true) ∧
  (set_process_suspended 4 true Scenarios.windows_boot).1 = false ∧
  procs (set_process_suspended 4 true Scenarios.windows_boot).2
    = procs Scenarios.windows_boot.
Proof.
  intros r.
  destruct (win32_set_process_suspended_outcome 1200 true
              Scenarios.windows_boot) as [Hok _].
  destruct (win32_set_process_suspended_outcome 4 true
              Scenarios.windows_boot) as [_ Hfail].
  assert (r.1 = true) as H1 by (vm_compute; reflexivity).
  assert ((set_process_suspended 4 true Scenarios.windows_boot).1 = false)
    as H2 by (vm_compute; reflexivity).
  destruct (Hok H1) as (p&_&_&_&_&Hcap).
  split; [exact H1|]. split; [exact Hcap|]. split; [exact H2|exact (Hfail H2)].
Defined.

End win32_more.

Section win32_tree.
Import Cxx Win32.

Lemma win32_tree_loop_done fuel w tree : tree_loop fuel w tree [] = Some tree.
Proof. by destruct fuel. Qed.

Lemma win32_tree_loop_pop fuel w entries tree rest x :
  snapshot w = Some entries →
  tree_loop (S fuel) w tree (rest ++ [x]) =
    tree_loop fuel w (tree ++ children x entries) (rest ++ children x entries).
Proof. intros Hs. cbn [tree_loop]. by rewrite pop_back_snoc, Hs. Qed.

Lemma win32_tree_loop_mono fuel fuel' w tree to_check result :
  tree_loop fuel w tree to_check = Some result → (fuel ≤ fuel')%nat →
  tree_loop fuel' w tree to_check = Some result.
Proof.
  revert fuel' tree to_check.
  induction fuel as [|fuel IH]; intros fuel' tree to_check.
  - cbn [tree_loop]. destruct (pop_back to_check) as [[c st]|] eqn:Hpop; [done|].
    intros [= ->] _. destruct fuel'; cbn [tree_loop]; by rewrite Hpop.
  - intros Hrun Hle. destruct fuel' as [|fuel']; [lia|].
    cbn [tree_loop] in *.
    destruct (pop_back to_check) as [[c st]|]; [|done].
    destruct (snapshot w); apply IH; (done || lia).
Qed.

Lemma win32_tree_loop_returns_acc fuel w entries tree to_check result :
  snapshot w = Some entries →
  tree_loop fuel w tree to_check = Some result →
  ∀ y, y ∈ to_check → Acc (child_of entries) y.
Proof.
  intros Hs. revert tree to_check.
  induction fuel as [|fuel IH]; intros tree to_check Hrun y Hin;
    cbn [tree_loop] in Hrun;
    destruct (pop_back_is_Some to_check y Hin) as [[c st] Hpop];
    rewrite Hpop in Hrun; [done|].
  rewrite Hs in Hrun. apply pop_back_inv in Hpop as ->.
  pose proof (IH _ _ Hrun) as Hacc.
  apply elem_of_app in Hin as [Hin|Hin].
  - apply Hacc, elem_of_app. by left.
  - apply list_elem_of_singleton in Hin as ->. constructor.
    intros x Hx. apply Hacc, elem_of_app. by right.
Qed.

Section win32_walk.
Context (w : world) (entries : list PROCESSENTRY32W).
Hypothesis Hsnap : snapshot w = Some entries.

Lemma win32_works_off_list (l : list Z) :
  (∀ y, y ∈ l → ∃ k extra, works_off w [y] k extra ∧
                 ∀ z, z ∈ extra ↔ descends entries y z) →
  ∃ k extra, works_off w l k extra ∧
             ∀ z, z ∈ extra ↔ ∃ y, y ∈ l ∧ descends entries y z.
Proof.
  induction l as [|y l IH] using rev_ind; intros Hall.
  { exists 0%nat, []. split.
    - intros fuel tree rest. by rewrite !app_nil_r.
    - intros z. split; [by intros ?%elem_of_nil|by intros (?&?%elem_of_nil&_)]. }
  destruct (Hall y) as (k1&extra1&H1&Hd1).
  { apply elem_of_app. right. by apply list_elem_of_singleton. }
  destruct IH as (k2&extra2&H2&Hd2).
  { intros y' Hy'. apply Hall, elem_of_app. by left. }
  exists (k1 + k2)%nat, (extra1 ++ extra2). split.
  - intros fuel tree rest.
    rewrite (assoc_L (++)), <-(assoc_L Nat.add), H1, H2.
    by rewrite (assoc_L (++)).
  - intros z. rewrite elem_of_app, Hd1, Hd2. split.
    + intros [?|(y'&?&?)]; [exists y|exists y']; (split; [|done]);
        apply elem_of_app; [right|by left]. by apply list_elem_of_singleton.
    + intros (y'&Hin&?). apply elem_of_app in Hin as [?|Hin]; [right; eauto|].
      apply list_elem_of_singleton in Hin as ->. by left.
Qed.

Lemma win32_works_off_acc x :
  Acc (child_of entries) x →
  ∃ k extra, works_off w [x] k extra ∧ ∀ z, z ∈ extra ↔ descends entries x z.
Proof.
  induction 1 as [x _ IH].
  destruct (win32_works_off_list (children x entries)) as (k&extra&Hw&Hd).
  { intros y Hy. by apply IH. }
  exists (S k), (children x entries ++ extra). split.
  - intros fuel tree rest. change (S k + fuel)%nat with (S (k + fuel)).
    rewrite (win32_tree_loop_pop _ _ _ _ _ _ Hsnap), Hw.
    by rewrite (assoc_L (++)).
  - intros z. rewrite elem_of_app, Hd. split.
    + intros [?|(y&?&?)]; [by apply descends_child|by eapply descends_step].
    + inversion 1; simplify_eq; [by left|right; eauto].
Qed.

End win32_walk.

(** (X23) The tree walk of the Windows build.  [get_process_tree]
    returns exactly on the snapshots in which every chain of children
    below the root ends, and what it returns is the root followed by its
    descendants. *)
Theorem win32_get_process_tree_spec w entries root :
  snapshot w = Some entries →
  ((∃ fuel tree, get_process_tree fuel root w = Some tree) ↔
   Acc (child_of entries) root) ∧
  (∀ fuel tree, get_process_tree fuel root w = Some tree →
     ∃ rest, tree = root :: rest ∧ ∀ z, z ∈ rest ↔ descends entries root z).
Proof.
  intros Hs.
  assert (∀ fuel tree, get_process_tree fuel root w = Some tree →
            Acc (child_of entries) root) as Hacc.
  { intros fuel tree Hrun.
    eapply (win32_tree_loop_returns_acc _ _ _ _ _ _ Hs Hrun).
    by apply list_elem_of_singleton. }
  assert (Acc (child_of entries) root →
          ∃ k rest, (∀ fuel, (k ≤ fuel)%nat →
                       get_process_tree fuel root w = Some (root :: rest)) ∧
                    ∀ z, z ∈ rest ↔ descends entries root z) as Hrun.
  { intros Ha.
    destruct (win32_works_off_acc w entries Hs root Ha) as (k&extra&Hw&Hd).
    exists k, extra. split; [|done]. intros fuel Hle.
    replace fuel with (k + (fuel - k))%nat by lia.
    unfold get_process_tree.
    pose proof (Hw (fuel - k)%nat [root] []) as Heq. cbn [app] in Heq.
    rewrite Heq. apply win32_tree_loop_done. }
  split; [split|].
  - intros (fuel&tree&H). by eapply Hacc.
  - intros Ha. destruct (Hrun Ha) as (k&rest&Hk&_).
    exists k, (root :: rest). by apply Hk.
  - intros fuel tree H. destruct (Hrun (Hacc _ _ H)) as (k&rest&Hk&Hd).
    exists rest. split; [|done].
    pose proof (win32_tree_loop_mono _ (fuel `max` k) _ _ _ _ H ltac:(lia)).
    pose proof (Hk (fuel `max` k)%nat ltac:(lia)) as H2.
    unfold get_process_tree in *. congruence.
Qed.

Lemma win32_get_process_tree_spec_witness :
  Acc (child_of (default [] (snapshot Scenarios.windows_boot))) 4 ∧
  ∃ rest, [4; 1200] = 4 :: rest ∧
          ∀ z, z ∈ rest ↔
               descends (default [] (snapshot Scenarios.windows_boot)) 4 z.
Proof.
  destruct (win32_get_process_tree_spec Scenarios.windows_boot _ 4 eq_refl)
    as [Hiff Hres].
  split.
  - apply Hiff. exists 2%nat, [4; 1200]. vm_compute; reflexivity.
  - apply (Hres 2%nat). vm_compute; reflexivity.
Defined.

End win32_tree.
